(** * The callback and task dispatch core of DearPyGui (mvCallbackRegistry.h)

    A shallow embedding of [mvQueue], [mvCallbackWrapper],
    [mvCallbackPythonSlot], [mvSubmitTask] and [mvSubmitCallback], with the
    properties of the dispatch core stated over it.

    Memory is explicit: queue nodes and callback wrappers live in finite maps
    from addresses to records, so that the raw [m_tail] pointer, the owning
    [m_head] chain and the [this]/[other] references of the wrapper are
    what they are in the C++ code, aliasing included. *)

From Stdlib Require Import ZArith Lia String.
From stdpp Require Import base option list gmap.

(** ** Outcomes of an operation

    [Ret a]      the call returns [a];
    [Blocked]    the call waits on the condition variable and no other thread
                 is there to signal it (sequential execution);
    [Undefined]  the call dereferences a null or dangling pointer;
    [Diverges]   a loop did not finish within the steps it was given. *)

Inductive outcome (A : Type) : Type :=
  | Ret (a : A)
  | Blocked
  | Undefined
  | Diverges.

Arguments Ret {A} a.
Arguments Blocked {A}.
Arguments Undefined {A}.
Arguments Diverges {A}.

#[global] Instance outcome_ret : MRet outcome := λ A a, Ret a.

#[global] Instance outcome_bind : MBind outcome := λ A B f m,
  match m with
  | Ret a => f a
  | Blocked => Blocked
  | Undefined => Undefined
  | Diverges => Diverges
  end.

(** Addresses of heap objects; a null pointer is [None]. *)
Abbreviation loc := positive.

(** ** mvQueue<T> *)

Section mvQueue.

Context {T : Type}.

(** [struct node { shared_ptr<T> data; unique_ptr<node> next; }] *)
Record node : Type := Node {
  data : option T;
  next : option loc
}.

(** The queue object: the nodes it owns, the owning pointer [m_head] and
    the raw pointer [m_tail].  The two mutexes and the condition variable
    carry no data; a call below is one critical section. *)
Record mvQueue : Type := MkQueue {
  nodes  : gmap loc node;
  m_head : option loc;
  m_tail : loc
}.

(** [new node] / [std::make_unique<node>()]: an address not in use. *)
Definition new_node (h : gmap loc node) : loc := fresh (dom h).

(** Destruction of what a [unique_ptr<node>] owns: the node and, through
    its [next], the rest of the chain. *)
Fixpoint destroy_chain (fuel : nat) (p : option loc) (h : gmap loc node)
  : gmap loc node :=
  match fuel, p with
  | S k, Some l =>
      match h !! l with
      | Some n => destroy_chain k (next n) (delete l h)
      | None => h
      end
  | _, _ => h
  end.

(** [mvQueue() : m_head(new node), m_tail(m_head.get()) {}] *)
Definition mvQueue_new : mvQueue :=
  let p := new_node ∅ in
  MkQueue {[ p := Node None None ]} (Some p) p.

(** [push]: the new dummy node [p] is allocated first; under the tail lock
    the old dummy receives the value and takes ownership of [p], which
    releases whatever its [next] owned before.  Writing through an [m_tail]
    that points to no node of the queue is undefined. *)
Definition push (value : T) (q : mvQueue) : outcome mvQueue :=
  let p := new_node (nodes q) in
  let h := <[ p := Node None None ]> (nodes q) in
  match nodes q !! m_tail q with
  | None => Undefined
  | Some t =>
      let h' := destroy_chain (size h) (next t) h in
      Ret (MkQueue (<[ m_tail q := Node (Some value) (Some p) ]> h')
                   (m_head q) p)
  end.

Definition get_tail (q : mvQueue) : loc := m_tail q.

(** [empty]: [m_head.get() == get_tail()] *)
Definition empty (q : mvQueue) : bool :=
  bool_decide (m_head q = Some (get_tail q)).

(** [pop_head]: the old head node leaves the queue (its [next] has been
    moved from, hence is null in the node handed to the caller). *)
Definition pop_head (q : mvQueue) : outcome (node * mvQueue) :=
  match m_head q with
  | None => Undefined
  | Some l =>
      match nodes q !! l with
      | None => Undefined
      | Some n =>
          Ret (Node (data n) None,
               MkQueue (delete l (nodes q)) (next n) (m_tail q))
      end
  end.

(** [try_pop_head()] *)
Definition try_pop_head (q : mvQueue) : outcome (option node * mvQueue) :=
  if empty q then Ret (None, q)
  else '(n, q') ← pop_head q; Ret (Some n, q').

(** The payload that [m_head->data] points to, read for
    [value = std::move( *m_head->data )]. *)
Definition head_data (q : mvQueue) : outcome T :=
  match m_head q with
  | None => Undefined
  | Some l =>
      match nodes q !! l with
      | Some (Node (Some v) _) => Ret v
      | _ => Undefined
      end
  end.

(** [try_pop_head(T& value)]; the reference parameter is passed in and
    handed back. *)
Definition try_pop_head_value (value : T) (q : mvQueue)
  : outcome (option node * T * mvQueue) :=
  if empty q then Ret (None, value, q)
  else
    v ← head_data q;
    '(n, q') ← pop_head q;
    Ret (Some n, v, q').

(** [wait_for_data]: the predicate of the condition wait. *)
Definition wait_for_data (q : mvQueue) : outcome unit :=
  if empty q then Blocked else Ret ().

(** [wait_pop_head()] *)
Definition wait_pop_head (q : mvQueue) : outcome (node * mvQueue) :=
  _ ← wait_for_data q; pop_head q.

(** [wait_pop_head(T& value)] *)
Definition wait_pop_head_value (q : mvQueue) : outcome (node * T * mvQueue) :=
  _ ← wait_for_data q;
  v ← head_data q;
  '(n, q') ← pop_head q;
  Ret (n, v, q').

(** [shared_ptr<T> wait_and_pop()] *)
Definition wait_and_pop (q : mvQueue) : outcome (option T * mvQueue) :=
  '(old_head, q') ← wait_pop_head q; Ret (data old_head, q').

(** [shared_ptr<T> try_pop()] *)
Definition try_pop (q : mvQueue) : outcome (option T * mvQueue) :=
  '(old_head, q') ← try_pop_head q;
  Ret (match old_head with
       | Some n => data n
       | None => None
       end, q').

(** [void wait_and_pop(T& value)] *)
Definition wait_and_pop_value (q : mvQueue) : outcome (T * mvQueue) :=
  '(_, v, q') ← wait_pop_head_value q; Ret (v, q').

(** [bool try_pop(T& value)] *)
Definition try_pop_value (value : T) (q : mvQueue)
  : outcome (bool * T * mvQueue) :=
  '(old_head, v, q') ← try_pop_head_value value q;
  Ret (match old_head with
       | Some _ => true
       | None => false
       end, v, q').

(** *** Sequences of calls *)

Fixpoint push_all (vs : list T) (q : mvQueue) : outcome mvQueue :=
  match vs with
  | [] => Ret q
  | v :: vs' => q' ← push v q; push_all vs' q'
  end.

(** The four ways of taking an element. *)
Inductive pop_kind : Type :=
  | ByTryPop
  | ByTryPopValue (value : T)
  | ByWaitAndPop
  | ByWaitAndPopValue.

(** What the caller holds after the call: the payload, or nothing. *)
Definition pop_by (k : pop_kind) (q : mvQueue) : outcome (option T * mvQueue) :=
  match k with
  | ByTryPop => try_pop q
  | ByTryPopValue value =>
      '(b, v, q') ← try_pop_value value q;
      Ret (if b : bool then Some v else None, q')
  | ByWaitAndPop => wait_and_pop q
  | ByWaitAndPopValue =>
      '(v, q') ← wait_and_pop_value q; Ret (Some v, q')
  end.

Fixpoint pop_each (ks : list pop_kind) (q : mvQueue)
  : outcome (list (option T) * mvQueue) :=
  match ks with
  | [] => Ret ([], q)
  | k :: ks' =>
      '(x, q') ← pop_by k q;
      '(xs, q'') ← pop_each ks' q';
      Ret (x :: xs, q'')
  end.

(** *** Representation invariant

    [chain h p cs t]: starting at [p], the nodes at the addresses of [cs]
    hold the values of [cs] and link up to [t]. *)
Fixpoint chain (h : gmap loc node) (p : loc) (cs : list (loc * T)) (t : loc)
  : Prop :=
  match cs with
  | [] => p = t
  | (l, v) :: cs' =>
      p = l ∧ ∃ nx, h !! l = Some (Node (Some v) (Some nx)) ∧ chain h nx cs' t
  end.

(** [is_queue q vs]: [q] holds exactly [vs], oldest first, followed by the
    dummy node that [m_tail] points to. *)
Definition is_queue (q : mvQueue) (vs : list T) : Prop :=
  ∃ hd cs,
    m_head q = Some hd ∧
    cs.*2 = vs ∧
    NoDup (cs.*1 ++ [m_tail q]) ∧
    chain (nodes q) hd cs (m_tail q) ∧
    nodes q !! m_tail q = Some (Node None None).

End mvQueue.

Arguments node : clear implicits.
Arguments mvQueue : clear implicits.
Arguments pop_kind : clear implicits.

(** *** Programs over one queue *)

Section mvQueue_programs.

Context {T : Type}.

(** A call on the queue: [push], one of the four pops, or [empty]. *)
Inductive queue_op : Type :=
  | DoPush (v : T)
  | DoPop (k : pop_kind T)
  | DoEmpty.

(** What a call hands back to the caller ([push] hands back nothing). *)
Inductive answer : Type :=
  | Popped (x : option T)
  | IsEmpty (b : bool).

(** The calls of [ops] one after the other on [q]. *)
Fixpoint run_ops (ops : list queue_op) (q : mvQueue T)
  : outcome (list answer * mvQueue T) :=
  match ops with
  | [] => Ret ([], q)
  | DoPush v :: ops' => q' ← push v q; run_ops ops' q'
  | DoPop k :: ops' =>
      '(x, q') ← pop_by k q;
      '(rs, q'') ← run_ops ops' q';
      Ret (Popped x :: rs, q'')
  | DoEmpty :: ops' =>
      '(rs, q') ← run_ops ops' q;
      Ret (IsEmpty (empty q) :: rs, q')
  end.

(** The two pops that wait for data. *)
Definition waits (k : pop_kind T) : bool :=
  match k with
  | ByWaitAndPop | ByWaitAndPopValue => true
  | ByTryPop | ByTryPopValue _ => false
  end.

(** The reference: the same calls on a plain list, oldest element first.
    A waiting pop on the empty list waits for ever, a non-blocking one
    hands back nothing. *)
Fixpoint list_ops (ops : list queue_op) (vs : list T)
  : outcome (list answer * list T) :=
  match ops with
  | [] => Ret ([], vs)
  | DoPush v :: ops' => list_ops ops' (vs ++ [v])
  | DoPop k :: ops' =>
      match vs with
      | v :: vs' =>
          '(rs, vs'') ← list_ops ops' vs'; Ret (Popped (Some v) :: rs, vs'')
      | [] =>
          if waits k then Blocked
          else '(rs, vs'') ← list_ops ops' []; Ret (Popped None :: rs, vs'')
      end
  | DoEmpty :: ops' =>
      '(rs, vs') ← list_ops ops' vs;
      Ret (IsEmpty (match vs with [] => true | _ :: _ => false end) :: rs, vs')
  end.

End mvQueue_programs.

Arguments queue_op : clear implicits.
Arguments answer : clear implicits.

(** ** The embedding interpreter, callbacks and the registry *)

(** [mvUUID] is an unsigned 64-bit identifier; it is only passed through. *)
Definition mvUUID : Type := Z.

(** [i32] arithmetic of [callCount]: the atomic increment wraps around. *)
Definition wrap_i32 (z : Z) : Z := ((z + 2 ^ 31) mod 2 ^ 32 - 2 ^ 31)%Z.

(** [std::future<R>]: default-constructed without a shared state
    ([return {}]), or obtained from a packaged task, whose result is ready
    once the task has been invoked. *)
Inductive future : Type :=
  | NoState
  | SharedState (ready : bool).

Definition valid (fut : future) : bool :=
  match fut with
  | NoState => false
  | SharedState _ => true
  end.

(** [class mvCallbackWrapper { PyObject* callback; PyObject* userData; }] *)
Record mvCallbackWrapper : Type := MkWrapper {
  callback : option loc;
  userData : option loc
}.

(** [class mvCallbackPythonSlot]; [callbackWrapper] is the address of the
    member object. *)
Record mvCallbackPythonSlot : Type := MkSlot {
  pythonName : string;
  callbackWrapper : loc
}.

Section Dispatch.

(** [Host]: the state of the embedding environment besides the reference
    counts.  [F]: the closures that callers hand to [mvSubmitTask] and
    [mvSubmitCallback]. *)
Context {Host F : Type}.

(** The interpreter side: [ob_refcnt] of every object, and the rest. *)
Record Env : Type := MkEnv {
  ob_refcnt : gmap loc Z;
  host : Host
}.

Definition refcnt (e : Env) (o : loc) : Z := default 0%Z (ob_refcnt e !! o).

(** Modelled from the spec: [Py_XINCREF] and [Py_XDECREF] are macros of the
    embedding interpreter, not of this repository; they are the injected
    [retain(ref)] / [release(ref)] capability over a mock reference counter.
    Both do nothing on a null pointer. *)
Definition Py_XINCREF (p : option loc) (e : Env) : Env :=
  match p with
  | None => e
  | Some o => MkEnv (<[ o := (refcnt e o + 1)%Z ]> (ob_refcnt e)) (host e)
  end.

(** Modelled from the spec: [Py_XDECREF], the [release(ref)] half of the
    same capability. *)
Definition Py_XDECREF (p : option loc) (e : Env) : Env :=
  match p with
  | None => e
  | Some o => MkEnv (<[ o := (refcnt e o - 1)%Z ]> (ob_refcnt e)) (host e)
  end.

(** The closures that reach the queues.  The lambda of
    [mvCallbackWrapper::run] is written [[=]() { ... callback ... userData
    ... }] inside a member function: [sender] and [appData] are locals and
    are copied, while [callback] and [userData] are data members, so the
    capture-default captures [this] and the body reads [this->callback] and
    [this->userData] when it is invoked. *)
Inductive closure : Type :=
  | UserClosure (f : F)
  | RunLambda (this : loc) (sender : mvUUID) (appData : option loc).

(** [class mvFunctionWrapper { unique_ptr<impl_base> m_impl; }], holding the
    packaged task built around a closure. *)
Record mvFunctionWrapper : Type := MkFunctionWrapper {
  m_impl : option closure
}.

(** [struct mvCallbackRegistry], the members read by the submit functions. *)
Record mvCallbackRegistry : Type := MkRegistry {
  maxNumberOfCalls : Z;
  tasks : mvQueue mvFunctionWrapper;
  calls : mvQueue mvFunctionWrapper;
  running : bool;
  callCount : Z
}.

(** Member initialisers of [mvCallbackRegistry]. *)
Definition mvCallbackRegistry_new : mvCallbackRegistry :=
  MkRegistry 50%Z mvQueue_new mvQueue_new false 0%Z.

(** The process: interpreter, live callback wrappers, and [GContext] with
    its [started] flag and its [callbackRegistry]. *)
Record World : Type := MkWorld {
  env : Env;
  wrappers : gmap loc mvCallbackWrapper;
  started : bool;
  callbackRegistry : mvCallbackRegistry
}.

Definition set_env (e : Env) (w : World) : World :=
  MkWorld e (wrappers w) (started w) (callbackRegistry w).

Definition set_wrappers (m : gmap loc mvCallbackWrapper) (w : World) : World :=
  MkWorld (env w) m (started w) (callbackRegistry w).

Definition set_registry (r : mvCallbackRegistry) (w : World) : World :=
  MkWorld (env w) (wrappers w) (started w) r.

Definition set_tasks (q : mvQueue mvFunctionWrapper) (r : mvCallbackRegistry)
  : mvCallbackRegistry :=
  MkRegistry (maxNumberOfCalls r) q (calls r) (running r) (callCount r).

Definition set_calls (q : mvQueue mvFunctionWrapper) (r : mvCallbackRegistry)
  : mvCallbackRegistry :=
  MkRegistry (maxNumberOfCalls r) (tasks r) q (running r) (callCount r).

Definition set_callCount (n : Z) (r : mvCallbackRegistry) : mvCallbackRegistry :=
  MkRegistry (maxNumberOfCalls r) (tasks r) (calls r) (running r) n.

(** What a caller's closure does when invoked: anything, to the whole
    process. *)
Variable invoke : F → World → outcome World.

(** [mvRunCallback(callback, sender, app_data, user_data)] is declared in the
    header and defined elsewhere: the call into the interpreter, taken by
    its effect on the interpreter side. *)
Variable mvRunCallback : option loc → mvUUID → option loc → option loc → Env → Env.

(** Invocation of a closure. *)
Definition call_closure (c : closure) (w : World) : outcome World :=
  match c with
  | UserClosure f => invoke f w
  | RunLambda this sender appData =>
      match wrappers w !! this with
      | None => Undefined
      | Some o =>
          let e1 := mvRunCallback (callback o) sender appData (userData o) (env w) in
          let e2 := Py_XDECREF (callback o) e1 in
          let e3 := Py_XDECREF (userData o) e2 in
          Ret (set_env (Py_XDECREF appData e3) w)
      end
  end.

(** [mvFunctionWrapper::operator()]: [m_impl->call()] *)
Definition call_wrapper (t : mvFunctionWrapper) (w : World) : outcome World :=
  match m_impl t with
  | None => Undefined
  | Some c => call_closure c w
  end.

(** [mvSubmitTask(f)] *)
Definition mvSubmitTask (f : closure) (w : World) : outcome (future * World) :=
  let task := MkFunctionWrapper (Some f) in
  if started w then
    q ← push task (tasks (callbackRegistry w));
    Ret (SharedState false, set_registry (set_tasks q (callbackRegistry w)) w)
  else
    w' ← call_wrapper task w;
    Ret (SharedState true, w').

(** [mvSubmitCallback(f)] *)
Definition mvSubmitCallback (f : closure) (w : World) : outcome (future * World) :=
  let r := callbackRegistry w in
  if bool_decide (callCount r > maxNumberOfCalls r)%Z then Ret (NoState, w)
  else
    let r1 := set_callCount (wrap_i32 (callCount r + 1)%Z) r in
    let task := MkFunctionWrapper (Some f) in
    q ← push task (calls r1);
    Ret (SharedState false, set_registry (set_calls q r1) w).

(** *** mvCallbackWrapper *)

(** Member access through a pointer to a wrapper. *)
Definition load (a : loc) (w : World) : outcome mvCallbackWrapper :=
  match wrappers w !! a with
  | None => Undefined
  | Some o => Ret o
  end.

Definition store_callback (a : loc) (v : option loc) (w : World) : outcome World :=
  o ← load a w;
  Ret (set_wrappers (<[ a := MkWrapper v (userData o) ]> (wrappers w)) w).

Definition store_userData (a : loc) (v : option loc) (w : World) : outcome World :=
  o ← load a w;
  Ret (set_wrappers (<[ a := MkWrapper (callback o) v ]> (wrappers w)) w).

(** Storage for a new wrapper, with the default member initialisers
    [callback = nullptr], [userData = nullptr]. *)
Definition new_wrapper (w : World) : loc * World :=
  let this := fresh (dom (wrappers w)) in
  (this, set_wrappers (<[ this := MkWrapper None None ]> (wrappers w)) w).

(** [mvCallbackWrapper() = default] *)
Definition mvCallbackWrapper_default (w : World) : loc * World :=
  new_wrapper w.

(** [mvCallbackWrapper(PyObject* callback, PyObject* userData, bool borrow)] *)
Definition mvCallbackWrapper_new (cb ud : option loc) (borrow : bool) (w : World)
  : loc * World :=
  let this := fresh (dom (wrappers w)) in
  let w1 := set_wrappers (<[ this := MkWrapper cb ud ]> (wrappers w)) w in
  if borrow then
    (this, set_env (Py_XINCREF ud (Py_XINCREF cb (env w1))) w1)
  else (this, w1).

(** [template<typename F> mvCallbackWrapper(F&& f)]: takes over the
    references of [f] and nulls them there. *)
Definition mvCallbackWrapper_steal (f : loc) (w : World) : outcome (loc * World) :=
  let '(this, w0) := new_wrapper w in
  o ← load f w0;
  w1 ← store_callback this (callback o) w0;
  o ← load f w1;
  w2 ← store_userData this (userData o) w1;
  w3 ← store_callback f None w2;
  w4 ← store_userData f None w3;
  Ret (this, w4).

(** [mvCallbackWrapper& operator=(mvCallbackWrapper&& other)] *)
Definition mvCallbackWrapper_assign (this other : loc) (w : World) : outcome World :=
  o ← load other w;
  w1 ← store_callback this (callback o) w;
  o ← load other w1;
  w2 ← store_userData this (userData o) w1;
  w3 ← store_callback other None w2;
  store_userData other None w3.

(** [void run(mvUUID sender, PyObject* appData, bool decrementAppData)] *)
Definition mvCallbackWrapper_run (this : loc) (sender : mvUUID)
    (appData : option loc) (decrementAppData : bool) (w : World) : outcome World :=
  o ← load this w;
  match callback o with
  | None => Ret w
  | Some _ =>
      let e1 := Py_XINCREF (callback o) (env w) in
      let e2 := Py_XINCREF (userData o) e1 in
      let e3 := if decrementAppData then e2 else Py_XINCREF appData e2 in
      '(_, w') ← mvSubmitCallback (RunLambda this sender appData) (set_env e3 w);
      Ret w'
  end.

(** [void run_blocking(mvUUID sender, PyObject* appData, bool decrementAppData)] *)
Definition mvCallbackWrapper_run_blocking (this : loc) (sender : mvUUID)
    (appData : option loc) (decrementAppData : bool) (w : World) : outcome World :=
  o ← load this w;
  match callback o with
  | None => Ret w
  | Some _ =>
      Ret (set_env (mvRunCallback (callback o) sender appData (userData o) (env w)) w)
  end.

(** [~mvCallbackWrapper()]: both references are released and the object is
    gone. *)
Definition mvCallbackWrapper_delete (this : loc) (w : World) : outcome World :=
  o ← load this w;
  let e1 := Py_XDECREF (callback o) (env w) in
  let e2 := Py_XDECREF (userData o) e1 in
  Ret (set_wrappers (delete this (wrappers w)) (set_env e2 w)).

(** *** mvCallbackPythonSlot *)

(** [mvCallbackPythonSlot(const char* pythonName)] *)
Definition mvCallbackPythonSlot_new (name : string) (w : World)
  : mvCallbackPythonSlot * World :=
  let '(a, w') := new_wrapper w in (MkSlot name a, w').

Definition mvCallbackPythonSlot_run (s : mvCallbackPythonSlot) (sender : mvUUID)
    (appData : option loc) (decrementAppData : bool) (w : World) : outcome World :=
  mvCallbackWrapper_run (callbackWrapper s) sender appData decrementAppData w.

Definition mvCallbackPythonSlot_run_blocking (s : mvCallbackPythonSlot)
    (sender : mvUUID) (appData : option loc) (decrementAppData : bool) (w : World)
  : outcome World :=
  mvCallbackWrapper_run_blocking (callbackWrapper s) sender appData decrementAppData w.

(** *** Draining the calls channel *)

(** One non-blocking pop from [calls] followed by the invocation of what was
    popped; [None] when the channel is empty. *)
Definition run_next_call (w : World) : outcome (option World) :=
  '(t, q) ← try_pop (calls (callbackRegistry w));
  match t with
  | None => Ret None
  | Some u =>
      w' ← call_wrapper u (set_registry (set_calls q (callbackRegistry w)) w);
      Ret (Some w')
  end.

Fixpoint drain_calls (fuel : nat) (ran : bool) (w : World) : outcome (bool * World) :=
  match fuel with
  | O => Diverges
  | S k =>
      r ← run_next_call w;
      match r with
      | None => Ret (ran, w)
      | Some w' => drain_calls k true w'
      end
  end.

(** Modelled from the spec: [mvRunCallbacks] is declared in the header and
    defined elsewhere.  It "drains calls completely" by non-blocking
    pop-and-invoke until empty, "then resets callCount to 0", and "returns
    whether any callback ran".  The units may push further units, so the
    loop has no bound of its own: [fuel] is the number of rounds allowed. *)
Definition mvRunCallbacks (fuel : nat) (w : World) : outcome (bool * World) :=
  '(ran, w') ← drain_calls fuel false w;
  Ret (ran, set_registry (set_callCount 0%Z (callbackRegistry w')) w').

(** [n] submissions in a row; the futures are collected in order. *)
(** [n] task submissions in a row. *)
Fixpoint submit_tasks (fs : list closure) (w : World)
  : outcome (list future * World) :=
  match fs with
  | [] => Ret ([], w)
  | f :: fs' =>
      '(r, w1) ← mvSubmitTask f w;
      '(rs, w2) ← submit_tasks fs' w1;
      Ret (r :: rs, w2)
  end.

(** [n] calls of [run] on one wrapper, one per sender. *)
Fixpoint run_each (this : loc) (senders : list mvUUID) (appData : option loc)
    (decrementAppData : bool) (w : World) : outcome World :=
  match senders with
  | [] => Ret w
  | sender :: senders' =>
      w1 ← mvCallbackWrapper_run this sender appData decrementAppData w;
      run_each this senders' appData decrementAppData w1
  end.

Fixpoint submit_callbacks (fs : list closure) (w : World)
  : outcome (list future * World) :=
  match fs with
  | [] => Ret ([], w)
  | f :: fs' =>
      '(r, w1) ← mvSubmitCallback f w;
      '(rs, w2) ← submit_callbacks fs' w1;
      Ret (r :: rs, w2)
  end.

(** A closure that returns and touches the interpreter side only. *)
Definition env_only (f : F) : Prop :=
  ∀ w, ∃ e', invoke f w = Ret (set_env e' w).

(** A queued unit can be invoked in [w] and leaves the registry alone: it
    holds a closure of that kind, or a [run] lambda whose wrapper, read
    through [this], is alive. *)
Definition callable (w : World) (u : mvFunctionWrapper) : Prop :=
  match m_impl u with
  | None => False
  | Some (UserClosure f) => env_only f
  | Some (RunLambda this _ _) => is_Some (wrappers w !! this)
  end.

(** *** The life of a borrowing wrapper

    Construction with [borrow = true], [run], the invocation of the unit
    that [run] enqueued, and destruction, in the two orders in which the
    last two can happen. *)
Definition borrow_run_invoke_delete (cb ud : option loc) (sender : mvUUID)
    (appData : option loc) (decrementAppData : bool) (w : World) : outcome World :=
  let '(this, w1) := mvCallbackWrapper_new cb ud true w in
  w2 ← mvCallbackWrapper_run this sender appData decrementAppData w1;
  r ← run_next_call w2;
  mvCallbackWrapper_delete this (default w2 r).

Definition borrow_run_delete_invoke (cb ud : option loc) (sender : mvUUID)
    (appData : option loc) (decrementAppData : bool) (w : World) : outcome World :=
  let '(this, w1) := mvCallbackWrapper_new cb ud true w in
  w2 ← mvCallbackWrapper_run this sender appData decrementAppData w1;
  w3 ← mvCallbackWrapper_delete this w2;
  r ← run_next_call w3;
  Ret (default w3 r).

(** The same with the storage of the destroyed wrapper taken by a new
    wrapper for [cb'], [ud'] before the unit is invoked. *)
Definition borrow_run_delete_reuse_invoke (cb ud cb' ud' : option loc)
    (sender : mvUUID) (appData : option loc) (decrementAppData : bool) (w : World)
  : outcome World :=
  let '(this, w1) := mvCallbackWrapper_new cb ud true w in
  w2 ← mvCallbackWrapper_run this sender appData decrementAppData w1;
  w3 ← mvCallbackWrapper_delete this w2;
  let '(_, w4) := mvCallbackWrapper_new cb' ud' true w3 in
  r ← run_next_call w4;
  Ret (default w4 r).

End Dispatch.

Arguments Env : clear implicits.
Arguments closure : clear implicits.
Arguments mvFunctionWrapper : clear implicits.
Arguments mvCallbackRegistry : clear implicits.
Arguments World : clear implicits.
Arguments Py_XINCREF : simpl never.
Arguments Py_XDECREF : simpl never.

(** [points_to p o]: 1 when the pointer [p] is the address [o], else 0;
    the references that one pointer stands for. *)
Definition points_to (p : option loc) (o : loc) : Z :=
  if bool_decide (p = Some o) then 1%Z else 0%Z.

(** *** SanitizeCallback *)

Section Sanitize.

(** [Py_None], the address of the interpreter's [None] object. *)
Variable Py_None : loc.

(** [static PyObject* SanitizeCallback(PyObject* callback)] *)
Definition SanitizeCallback (callback : option loc) : option loc :=
  if bool_decide (callback = Some Py_None) then None else callback.

End Sanitize.

(** ** A small host for concrete runs

    The host state is a log of what ran: a caller's closure [n] logs [n],
    and the interpreter logs the sender of each callback it is asked to
    run. *)

Definition log_invoke (n : Z) (w : World (list Z) Z) : outcome (World (list Z) Z) :=
  Ret (set_env (MkEnv (ob_refcnt (env w)) (n :: host (env w))) w).

Definition log_callback (cb : option loc) (sender : mvUUID)
    (appData ud : option loc) (e : Env (list Z)) : Env (list Z) :=
  MkEnv (ob_refcnt e) (sender :: host e).

(** The process before and after start-up, with a fresh registry. *)
Definition idle_world : World (list Z) Z :=
  MkWorld (MkEnv ∅ []) ∅ false mvCallbackRegistry_new.

Definition started_world : World (list Z) Z :=
  MkWorld (MkEnv ∅ []) ∅ true mvCallbackRegistry_new.

(** The process with [callCount] past the ceiling. *)
Definition saturated_world : World (list Z) Z :=
  MkWorld (MkEnv ∅ []) ∅ true (set_callCount 51 mvCallbackRegistry_new).

(** Four interpreter objects, 10 to 13, each with one reference held by
    the caller; then one wrapper with a null callback; then two wrappers,
    at addresses 1 and 2, borrowing objects 10, 11 and 12, 13. *)
Definition objects_world : World (list Z) Z :=
  MkWorld (MkEnv (list_to_map [(10%positive, 1%Z); (11%positive, 1%Z);
                               (12%positive, 1%Z); (13%positive, 1%Z)]) [])
          ∅ true mvCallbackRegistry_new.

Definition null_wrapper_world : World (list Z) Z :=
  (mvCallbackWrapper_new None (Some 11%positive) true objects_world).2.

Definition two_wrappers_world : World (list Z) Z :=
  (mvCallbackWrapper_new (Some 12%positive) (Some 13%positive) true
     (mvCallbackWrapper_new (Some 10%positive) (Some 11%positive) true
        objects_world).2).2.

(** * Properties *)

(** ** The queue *)

Section mvQueue_facts.

Context {T : Type}.
Implicit Types (q : mvQueue T) (h : gmap loc (node T)) (vs : list T).
Implicit Types (cs : list (loc * T)) (p t l : loc).

Lemma destroy_chain_null fuel h : destroy_chain fuel None h = h.
Proof. by destruct fuel. Qed.

Lemma chain_frame h h' cs : ∀ p t,
  (∀ l, l ∈ cs.*1 → h' !! l = h !! l) →
  chain h p cs t → chain h' p cs t.
Proof.
  induction cs as [|[l v] cs IH]; intros p t Hsame; simpl; [done|].
  intros [-> (nx & Hl & Hrest)]. split; [done|]. exists nx. split.
  - rewrite Hsame; [done|]. simpl. left.
  - apply IH; [|done]. intros l' Hl'. apply Hsame. simpl. by right.
Qed.

Lemma chain_live h cs : ∀ p t l,
  chain h p cs t → l ∈ cs.*1 → is_Some (h !! l).
Proof.
  induction cs as [|[l0 v] cs IH]; intros p t l; simpl.
  - intros _ Hl. by apply elem_of_nil in Hl.
  - intros [-> (nx & Hl0 & Hrest)] [->|Hl]%elem_of_cons; [by eexists|].
    by eapply IH.
Qed.

Lemma chain_app h cs cs' : ∀ p t t',
  chain h p cs t → chain h t cs' t' → chain h p (cs ++ cs') t'.
Proof.
  induction cs as [|[l v] cs IH]; intros p t t'; simpl.
  - by intros ->.
  - intros [-> (nx & Hl & Hrest)] Htl. split; [done|]. exists nx.
    split; [done|]. by eapply IH.
Qed.

Lemma is_queue_new : is_queue (@mvQueue_new T) [].
Proof.
  exists (new_node (∅ : gmap loc (node T))), []. simpl.
  repeat split. apply NoDup_singleton.
Qed.

Lemma is_queue_empty q vs :
  is_queue q vs → empty q = bool_decide (vs = []).
Proof.
  intros (hd & cs & Hhd & <- & Hnd & Hch & Htl). unfold empty, get_tail.
  rewrite Hhd. destruct cs as [|[l v] cs]; simpl in *.
  - subst hd. by rewrite !bool_decide_eq_true_2.
  - destruct Hch as [-> _]. apply NoDup_cons in Hnd as [Hl _].
    rewrite !bool_decide_eq_false_2; [done..|].
    intros [= ->]. apply Hl. apply elem_of_app. right. left.
Qed.

Lemma push_is_queue q vs v :
  is_queue q vs → ∃ q', push v q = Ret q' ∧ is_queue q' (vs ++ [v]).
Proof.
  intros (hd & cs & Hhd & <- & Hnd & Hch & Htl).
  set (p := new_node (nodes q)).
  assert (Hp : nodes q !! p = None).
  { apply not_elem_of_dom. apply is_fresh. }
  assert (Hpt : p ≠ m_tail q) by (intros E; rewrite E, Htl in Hp; done).
  assert (Hpcs : p ∉ cs.*1).
  { intros Hin. destruct (chain_live _ _ _ _ _ Hch Hin) as [n Hn]. congruence. }
  unfold push. fold p. rewrite Htl. simpl.
  rewrite destroy_chain_null. eexists. split; [done|].
  exists hd, (cs ++ [(m_tail q, v)]). simpl. split; [done|].
  split; [by rewrite fmap_app|]. split; [|split].
  - rewrite fmap_app. simpl. apply NoDup_app. split; [done|]. split.
    + intros x Hx [->|[]%elem_of_nil]%elem_of_cons.
      apply elem_of_app in Hx as [Hx|[E|[]%elem_of_nil]%elem_of_cons]; done.
    + apply NoDup_singleton.
  - eapply chain_app.
    + eapply chain_frame; [|exact Hch]. intros l Hl.
      rewrite !lookup_insert_ne; [done|..].
      * intros ->. done.
      * intros <-. apply NoDup_app in Hnd as (_ & Hdis & _).
        apply (Hdis _ Hl). left.
    + simpl. split; [done|]. exists p. split; [|done]. apply lookup_insert_eq.
  - rewrite lookup_insert_ne by done. apply lookup_insert_eq.
Qed.

Lemma pop_head_is_queue q v vs :
  is_queue q (v :: vs) →
  ∃ q', pop_head q = Ret (Node (Some v) None, q') ∧ head_data q = Ret v ∧
        is_queue q' vs.
Proof.
  intros (hd & cs & Hhd & Hvs & Hnd & Hch & Htl).
  destruct cs as [|[l v'] cs]; simplify_eq/=.
  destruct Hch as [-> (nx & Hl & Hrest)].
  apply NoDup_cons in Hnd as [Hl1 Hnd].
  unfold pop_head, head_data. rewrite Hhd, Hl. simpl.
  eexists. split; [done|]. split; [done|].
  exists nx, cs. simpl. repeat split; [done| |].
  - eapply chain_frame; [|exact Hrest]. intros l' Hl'.
    apply lookup_delete_ne. intros ->. apply Hl1. apply elem_of_app. by left.
  - rewrite lookup_delete_ne; [done|]. intros ->. apply Hl1.
    apply elem_of_app. right. left.
Qed.

Lemma push_all_is_queue vs : ∀ q vs0,
  is_queue q vs0 → ∃ q', push_all vs q = Ret q' ∧ is_queue q' (vs0 ++ vs).
Proof.
  induction vs as [|v vs IH]; intros q vs0 Hq; simpl.
  - exists q. by rewrite app_nil_r.
  - destruct (push_is_queue q vs0 v Hq) as (q1 & -> & Hq1). simpl.
    destruct (IH q1 _ Hq1) as (q2 & -> & Hq2).
    exists q2. by rewrite <- app_assoc in Hq2.
Qed.

(** Each way of popping removes and returns the oldest element. *)
Lemma pop_by_is_queue (k : pop_kind T) q v vs :
  is_queue q (v :: vs) →
  ∃ q', pop_by k q = Ret (Some v, q') ∧ is_queue q' vs.
Proof.
  intros Hq. pose proof (is_queue_empty _ _ Hq) as He.
  rewrite bool_decide_eq_false_2 in He by done.
  destruct (pop_head_is_queue _ _ _ Hq) as (q' & Hpop & Hdata & Hq').
  exists q'. split; [|done].
  destruct k; simpl;
    unfold try_pop, try_pop_value, wait_and_pop, wait_and_pop_value,
      try_pop_head, try_pop_head_value, wait_pop_head, wait_pop_head_value,
      wait_for_data;
    rewrite He; simpl; rewrite ?Hdata; simpl; rewrite Hpop; done.
Qed.

Lemma pop_each_is_queue (ks : list (pop_kind T)) : ∀ q vs,
  is_queue q vs → length ks ≤ length vs →
  ∃ q', pop_each ks q = Ret (Some <$> take (length ks) vs, q') ∧
        is_queue q' (drop (length ks) vs).
Proof.
  induction ks as [|k ks IH]; intros q vs Hq Hlen; simpl in *.
  - exists q. by rewrite drop_0.
  - destruct vs as [|v vs]; simpl in *; [lia|].
    destruct (pop_by_is_queue k _ _ _ Hq) as (q1 & -> & Hq1). simpl.
    destruct (IH q1 vs Hq1 ltac:(lia)) as (q2 & -> & Hq2). simpl.
    by exists q2.
Qed.

(** C2. FIFO: N pushes to one queue followed by N pops, each by any of
    [try_pop], [try_pop(value&)], [wait_and_pop], [wait_and_pop(value&)],
    all return, and the values come out in the order in which they were
    pushed; the queue is empty again afterwards. *)
Theorem mvQueue_fifo (q : mvQueue T) (vs : list T) (ks : list (pop_kind T)) :
  is_queue q [] →
  length ks = length vs →
  ∃ q1 q2,
    push_all vs q = Ret q1 ∧
    is_queue q1 vs ∧
    pop_each ks q1 = Ret (Some <$> vs, q2) ∧
    is_queue q2 [].
Proof.
  intros Hq Hlen.
  destruct (push_all_is_queue vs q [] Hq) as (q1 & Hpush & Hq1).
  simpl in Hq1.
  destruct (pop_each_is_queue ks q1 vs Hq1 ltac:(lia)) as (q2 & Hpop & Hq2).
  rewrite Hlen, firstn_all in Hpop. rewrite Hlen, drop_all in Hq2.
  by exists q1, q2.
Qed.

Lemma empty_try_pop (q : mvQueue T) :
  empty q = true → try_pop q = Ret (None, q).
Proof. intros He. unfold try_pop, try_pop_head. by rewrite He. Qed.

Lemma empty_try_pop_value (q : mvQueue T) (value : T) :
  empty q = true → try_pop_value value q = Ret (false, value, q).
Proof. intros He. unfold try_pop_value, try_pop_head_value. by rewrite He. Qed.

(** In sequential execution [wait_and_pop] on an empty queue waits; once a
    value has been pushed it returns exactly that value. *)
Lemma wait_and_pop_after_push (q : mvQueue T) (v : T) :
  is_queue q [] →
  wait_and_pop q = Blocked ∧
  ∃ q1 q2, push v q = Ret q1 ∧ wait_and_pop q1 = Ret (Some v, q2) ∧ is_queue q2 [].
Proof.
  intros Hq. split.
  - pose proof (is_queue_empty _ _ Hq) as He.
    rewrite bool_decide_eq_true_2 in He by done.
    unfold wait_and_pop, wait_pop_head, wait_for_data. by rewrite He.
  - destruct (push_is_queue q [] v Hq) as (q1 & Hpush & Hq1). simpl in Hq1.
    destruct (pop_by_is_queue ByWaitAndPop _ _ _ Hq1) as (q2 & Hpop & Hq2).
    by exists q1, q2.
Qed.

(** C8. On an empty queue ([m_head.get() == get_tail()]) both non-blocking
    pops return at once, [try_pop()] with a null shared pointer and
    [try_pop(value&)] with [false], and neither the queue nor [value]
    has changed. *)
Theorem try_pop_empty (q : mvQueue T) (value : T) :
  empty q = true →
  try_pop q = Ret (None, q) ∧
  try_pop_value value q = Ret (false, value, q).
Proof.
  intros He. split; [by apply empty_try_pop | by apply empty_try_pop_value].
Qed.

End mvQueue_facts.

Lemma mvQueue_fifo_witness :
  is_queue (@mvQueue_new nat) [] ∧
  length [ByTryPop; ByWaitAndPop; ByTryPopValue 0; ByWaitAndPopValue] =
    length [7; 8; 9; 10] ∧
  ∃ q1 q2,
    push_all [7; 8; 9; 10] mvQueue_new = Ret q1 ∧
    is_queue q1 [7; 8; 9; 10] ∧
    pop_each [ByTryPop; ByWaitAndPop; ByTryPopValue 0; ByWaitAndPopValue] q1
      = Ret (Some <$> [7; 8; 9; 10], q2) ∧
    is_queue q2 [].
Proof.
  split; [apply is_queue_new|]. split; [reflexivity|].
  apply (mvQueue_fifo mvQueue_new); [apply is_queue_new | reflexivity].
Defined.

Lemma try_pop_empty_witness :
  empty (@mvQueue_new nat) = true ∧
  try_pop (@mvQueue_new nat) = Ret (None, mvQueue_new) ∧
  try_pop_value 5 mvQueue_new = Ret (false, 5, mvQueue_new).
Proof.
  split; [reflexivity|]. apply (try_pop_empty mvQueue_new 5). reflexivity.
Defined.

(** ** Admission control *)

Section Admission.

Context {Host F : Type}.
Implicit Types (w : World Host F) (f : closure F) (us : list (mvFunctionWrapper F)).

Lemma wrap_i32_small z : (- 2 ^ 31 ≤ z < 2 ^ 31)%Z → wrap_i32 z = z.
Proof. intros Hz. unfold wrap_i32. rewrite Z.mod_small; lia. Qed.

Lemma over_ceiling_refused f w :
  (callCount (callbackRegistry w) > maxNumberOfCalls (callbackRegistry w))%Z →
  mvSubmitCallback f w = Ret (NoState, w).
Proof.
  intros Hgt. unfold mvSubmitCallback. by rewrite bool_decide_eq_true_2.
Qed.

(** C6. A refused submission returns a future without shared state and
    leaves the whole process state as it was: [callCount] is not
    incremented and nothing is pushed onto [calls]. *)
Theorem mvSubmitCallback_refused f w :
  (callCount (callbackRegistry w) > maxNumberOfCalls (callbackRegistry w))%Z →
  ∃ fut, mvSubmitCallback f w = Ret (fut, w) ∧ valid fut = false.
Proof.
  intros Hgt. exists NoState. by rewrite (over_ceiling_refused f w Hgt).
Qed.

Lemma mvSubmitCallback_accepted f w us :
  is_queue (calls (callbackRegistry w)) us →
  (callCount (callbackRegistry w) ≤ maxNumberOfCalls (callbackRegistry w))%Z →
  ∃ q',
    mvSubmitCallback f w =
      Ret (SharedState false,
           set_registry
             (set_calls q'
                (set_callCount (wrap_i32 (callCount (callbackRegistry w) + 1))
                   (callbackRegistry w))) w) ∧
    is_queue q' (us ++ [MkFunctionWrapper (Some f)]).
Proof.
  intros Hq Hle. unfold mvSubmitCallback.
  rewrite bool_decide_eq_false_2 by lia. simpl.
  destruct (push_is_queue _ _ (MkFunctionWrapper (Some f)) Hq) as (q' & -> & Hq').
  by exists q'.
Qed.

(** Submissions in a row are all accepted as long as the counter has not
    passed the ceiling before each of them. *)
Lemma submit_callbacks_accepted (fs : list (closure F)) : ∀ w us,
  is_queue (calls (callbackRegistry w)) us →
  (0 ≤ callCount (callbackRegistry w))%Z →
  (callCount (callbackRegistry w) + Z.of_nat (length fs)
     ≤ maxNumberOfCalls (callbackRegistry w) + 1)%Z →
  (maxNumberOfCalls (callbackRegistry w) < 2 ^ 31 - 1)%Z →
  ∃ r',
    submit_callbacks fs w =
      Ret (replicate (length fs) (SharedState false), set_registry r' w) ∧
    callCount r' = (callCount (callbackRegistry w) + Z.of_nat (length fs))%Z ∧
    maxNumberOfCalls r' = maxNumberOfCalls (callbackRegistry w) ∧
    tasks r' = tasks (callbackRegistry w) ∧
    running r' = running (callbackRegistry w) ∧
    is_queue (calls r') (us ++ (MkFunctionWrapper ∘ Some <$> fs)).
Proof.
  induction fs as [|f fs IH]; intros w us Hq H0 Hsum Hmax; simpl in *.
  - exists (callbackRegistry w). destruct w as [e m s r]. simpl.
    rewrite app_nil_r. repeat split; [lia | done].
  - destruct (mvSubmitCallback_accepted f w us Hq ltac:(lia)) as (q1 & -> & Hq1).
    simpl. rewrite wrap_i32_small by lia.
    match goal with |- context [submit_callbacks fs ?w1] =>
      destruct (IH w1 _ Hq1) as (r2 & -> & Hc & Hm & Ht & Hr & Hq2);
        simpl; [lia..|]
    end.
    simpl in *. exists r2. rewrite <- app_assoc in Hq2.
    repeat split; [lia | done..].
Qed.

(** C1. With [callCount = 0] and ceiling [K = maxNumberOfCalls], the test
    [callCount > maxNumberOfCalls] lets K+1 submissions in a row through:
    each returns a valid future, [callCount] ends at K+1 and K+1 units are
    on [calls]; the first refusal is the submission after those. *)
Theorem ceiling_lets_one_more_through w us (fs : list (closure F)) f :
  is_queue (calls (callbackRegistry w)) us →
  callCount (callbackRegistry w) = 0%Z →
  (0 ≤ maxNumberOfCalls (callbackRegistry w) < 2 ^ 31 - 1)%Z →
  Z.of_nat (length fs) = (maxNumberOfCalls (callbackRegistry w) + 1)%Z →
  ∃ r',
    submit_callbacks fs w =
      Ret (replicate (length fs) (SharedState false), set_registry r' w) ∧
    callCount r' = (maxNumberOfCalls (callbackRegistry w) + 1)%Z ∧
    is_queue (calls r') (us ++ (MkFunctionWrapper ∘ Some <$> fs)) ∧
    mvSubmitCallback f (set_registry r' w) = Ret (NoState, set_registry r' w).
Proof.
  intros Hq Hc Hmax Hlen.
  destruct (submit_callbacks_accepted fs w us Hq) as (r' & Hsub & Hc' & Hm & _ & _ & Hq');
    [lia..|].
  exists r'. split; [done|]. split; [lia|]. split; [done|].
  apply over_ceiling_refused. simpl. lia.
Qed.

End Admission.

Lemma mvSubmitCallback_refused_witness :
  (callCount (callbackRegistry saturated_world)
     > maxNumberOfCalls (callbackRegistry saturated_world))%Z ∧
  ∃ fut, mvSubmitCallback (UserClosure 7%Z) saturated_world
           = Ret (fut, saturated_world) ∧ valid fut = false.
Proof.
  split; [reflexivity|].
  apply (mvSubmitCallback_refused (UserClosure 7%Z) saturated_world).
  reflexivity.
Defined.

Lemma ceiling_lets_one_more_through_witness :
  ∃ r',
    submit_callbacks (replicate 51 (UserClosure 7%Z)) started_world =
      Ret (replicate 51 (SharedState false), set_registry r' started_world) ∧
    callCount r' = 51%Z ∧
    is_queue (calls r')
      ([] ++ (MkFunctionWrapper ∘ Some <$> replicate 51 (UserClosure 7%Z))) ∧
    mvSubmitCallback (UserClosure 8%Z) (set_registry r' started_world)
      = Ret (NoState, set_registry r' started_world).
Proof.
  apply (ceiling_lets_one_more_through started_world []
           (replicate 51 (UserClosure 7%Z)) (UserClosure 8%Z)).
  - apply is_queue_new.
  - reflexivity.
  - simpl. lia.
  - reflexivity.
Defined.

(** ** Draining and the admission ceiling *)

Section Drain.

Context {Host F : Type}.
Variable invoke : F → World Host F → outcome (World Host F).
Variable mvRunCallback :
  option loc → mvUUID → option loc → option loc → Env Host → Env Host.
Implicit Types (w : World Host F) (u : mvFunctionWrapper F).
Implicit Types (us : list (mvFunctionWrapper F)).

Lemma call_wrapper_callable u w :
  callable invoke w u →
  ∃ e', call_wrapper invoke mvRunCallback u w = Ret (set_env e' w).
Proof.
  unfold callable, call_wrapper. destruct (m_impl u) as [[f|this sender app]|]; simpl.
  - intros Hf. apply Hf.
  - intros [o ->]. by eexists.
  - done.
Qed.

Lemma drain_calls_is_queue us : ∀ fuel ran w,
  is_queue (calls (callbackRegistry w)) us →
  Forall (callable invoke w) us →
  (length us < fuel)%nat →
  ∃ e' q',
    drain_calls invoke mvRunCallback fuel ran w =
      Ret (ran || bool_decide (us ≠ []),
           set_env e' (set_registry (set_calls q' (callbackRegistry w)) w)) ∧
    is_queue q' [].
Proof.
  induction us as [|u us IH]; intros fuel ran w Hq Hall Hfuel;
    (destruct fuel as [|k]; [simpl in Hfuel; lia|]); simpl; unfold run_next_call.
  - pose proof (is_queue_empty _ _ Hq) as He.
    rewrite bool_decide_eq_true_2 in He by done.
    rewrite (empty_try_pop _ He). simpl.
    exists (env w), (calls (callbackRegistry w)).
    rewrite orb_false_r. destruct w as [e m s [mx tq cq rn cc]]. by simpl.
  - destruct (pop_by_is_queue ByTryPop _ _ _ Hq) as (q1 & Hpop & Hq1).
    simpl in Hpop. rewrite Hpop. simpl.
    apply Forall_cons in Hall as [Hu Hall].
    set (w1 := set_registry (set_calls q1 (callbackRegistry w)) w).
    destruct (call_wrapper_callable u w1 Hu) as (e1 & ->). simpl.
    destruct (IH k true (set_env e1 w1)) as (e2 & q2 & -> & Hq2);
      [done | done | simpl in Hfuel; lia |].
    exists e2, q2. split; [|done]. rewrite orb_true_r. done.
Qed.

(** [mvRunCallbacks] returns on every well-formed channel whose units can
    be invoked, given more rounds than there are units: the channel is
    empty afterwards and [callCount] is 0. *)
Lemma mvRunCallbacks_resets us w fuel :
  is_queue (calls (callbackRegistry w)) us →
  Forall (callable invoke w) us →
  (length us < fuel)%nat →
  ∃ e' q',
    mvRunCallbacks invoke mvRunCallback fuel w =
      Ret (bool_decide (us ≠ []),
           set_env e'
             (set_registry
                (set_callCount 0 (set_calls q' (callbackRegistry w))) w)) ∧
    is_queue q' [].
Proof.
  intros Hq Hall Hfuel. unfold mvRunCallbacks.
  destruct (drain_calls_is_queue us fuel false w Hq Hall Hfuel)
    as (e' & q' & -> & Hq').
  simpl. by exists e', q'.
Qed.

(** After [mvRunCallbacks] the counter is back at 0 and submissions are
    accepted again, up to the same number as before. *)
Lemma admission_after_drain us w fuel (fs : list (closure F)) :
  is_queue (calls (callbackRegistry w)) us →
  Forall (callable invoke w) us →
  (length us < fuel)%nat →
  (0 ≤ maxNumberOfCalls (callbackRegistry w) < 2 ^ 31 - 1)%Z →
  (Z.of_nat (length fs) ≤ maxNumberOfCalls (callbackRegistry w) + 1)%Z →
  ∃ w1 r2,
    mvRunCallbacks invoke mvRunCallback fuel w = Ret (bool_decide (us ≠ []), w1) ∧
    callCount (callbackRegistry w1) = 0%Z ∧
    submit_callbacks fs w1 =
      Ret (replicate (length fs) (SharedState false), set_registry r2 w1) ∧
    callCount r2 = Z.of_nat (length fs) ∧
    is_queue (calls r2) (MkFunctionWrapper ∘ Some <$> fs).
Proof.
  intros Hq Hall Hfuel Hmax Hlen.
  destruct (mvRunCallbacks_resets us w fuel Hq Hall Hfuel) as (e' & q' & -> & Hq').
  eexists. 
  match goal with |- context [Ret (_, ?w1) = Ret (_, _)] =>
    destruct (submit_callbacks_accepted fs w1 [] Hq')
      as (r2 & Hsub & Hc & _ & _ & _ & Hq2); [simpl; lia..|]
  end.
  exists r2. split; [done|]. split; [done|]. split; [done|].
  simpl in Hc. split; [lia | done].
Qed.

End Drain.

(** ** Tasks *)

Section Tasks.

Context {Host F : Type}.
Variable invoke : F → World Host F → outcome (World Host F).
Variable mvRunCallback :
  option loc → mvUUID → option loc → option loc → Env Host → Env Host.
Implicit Types (w : World Host F) (us : list (mvFunctionWrapper F)).

(** C4. Before start-up ([GContext->started] false) [mvSubmitTask] runs the
    closure inside the call: what it returns is the state that [f] has
    produced, with a valid (and ready) future, and it pushes nothing itself,
    so a closure that leaves the registry alone finds [tasks] as it was.
    After start-up the closure is not run: the only change is one more unit
    at the end of [tasks], and the future is valid. *)
Theorem mvSubmitTask_before_and_after_start (f : F) w us :
  is_queue (tasks (callbackRegistry w)) us →
  (started w = false →
   mvSubmitTask invoke mvRunCallback (UserClosure f) w =
     (invoke f w ≫= λ w', Ret (SharedState true, w')) ∧
   valid (SharedState true) = true ∧
   ∀ e', invoke f w = Ret (set_env e' w) →
         ∃ w', mvSubmitTask invoke mvRunCallback (UserClosure f) w =
                 Ret (SharedState true, w') ∧
               env w' = e' ∧
               callbackRegistry w' = callbackRegistry w) ∧
  (started w = true →
   ∃ fut q',
     mvSubmitTask invoke mvRunCallback (UserClosure f) w =
       Ret (fut, set_registry (set_tasks q' (callbackRegistry w)) w) ∧
     valid fut = true ∧
     is_queue q' (us ++ [MkFunctionWrapper (Some (UserClosure f))])).
Proof.
  intros Hq. unfold mvSubmitTask, call_wrapper, call_closure.
  split; intros Hs; rewrite Hs; simpl.
  - split; [done|]. split; [done|]. intros e' ->. simpl. by eexists.
  - destruct (push_is_queue _ _ (MkFunctionWrapper (Some (UserClosure f))) Hq)
      as (q' & -> & Hq').
    simpl. by exists (SharedState false), q'.
Qed.

End Tasks.

Lemma mvSubmitTask_before_and_after_start_witness :
  (∃ w',
     mvSubmitTask log_invoke log_callback (UserClosure 7%Z) idle_world
       = Ret (SharedState true, w') ∧
     host (env w') = [7%Z] ∧
     callbackRegistry w' = callbackRegistry idle_world) ∧
  (∃ fut q',
     mvSubmitTask log_invoke log_callback (UserClosure 7%Z) started_world =
       Ret (fut, set_registry (set_tasks q' (callbackRegistry started_world))
                   started_world) ∧
     valid fut = true ∧
     is_queue q' [MkFunctionWrapper (Some (UserClosure 7%Z))]).
Proof.
  split.
  - destruct (mvSubmitTask_before_and_after_start log_invoke log_callback
                7%Z idle_world [] is_queue_new) as [Hidle _].
    destruct (Hidle eq_refl) as (_ & _ & Hf).
    destruct (Hf _ eq_refl) as (w' & Hrun & He & Hr).
    exists w'. rewrite He. done.
  - destruct (mvSubmitTask_before_and_after_start log_invoke log_callback
                7%Z started_world [] is_queue_new) as [_ Hstarted].
    exact (Hstarted eq_refl).
Defined.

(** ** Callback wrappers *)

Section Wrappers.

Context {Host F : Type}.
Variable mvRunCallback :
  option loc → mvUUID → option loc → option loc → Env Host → Env Host.
Implicit Types (w : World Host F) (e : Env Host) (o this other : loc).
Implicit Types (s d : mvCallbackWrapper).

Lemma refcnt_Py_XINCREF (p : option loc) e o :
  refcnt (Py_XINCREF p e) o =
    (refcnt e o + if bool_decide (p = Some o) then 1 else 0)%Z.
Proof.
  destruct p as [o'|]; unfold Py_XINCREF, Py_XDECREF; simpl; [|lia].
  unfold refcnt at 1. simpl.
  case_bool_decide as Ho; simplify_eq.
  - by rewrite lookup_insert_eq.
  - rewrite lookup_insert_ne by congruence. unfold refcnt. lia.
Qed.

Lemma refcnt_Py_XDECREF (p : option loc) e o :
  refcnt (Py_XDECREF p e) o =
    (refcnt e o - if bool_decide (p = Some o) then 1 else 0)%Z.
Proof.
  destruct p as [o'|]; unfold Py_XINCREF, Py_XDECREF; simpl; [|lia].
  unfold refcnt at 1. simpl.
  case_bool_decide as Ho; simplify_eq.
  - by rewrite lookup_insert_eq.
  - rewrite lookup_insert_ne by congruence. unfold refcnt. lia.
Qed.

(** C7. With a null [callback], [run] and [run_blocking] of a wrapper, and
    of a slot whose member wrapper it is, return with the process state
    unchanged: no callback is run, no reference count is touched, nothing
    is pushed onto [calls]. *)
Theorem null_callback_is_noop this (ud : option loc) (slot : mvCallbackPythonSlot)
    (sender : mvUUID) (appData : option loc) (decrementAppData : bool) w :
  wrappers w !! this = Some (MkWrapper None ud) →
  callbackWrapper slot = this →
  mvCallbackWrapper_run this sender appData decrementAppData w = Ret w ∧
  mvCallbackWrapper_run_blocking mvRunCallback this sender appData
    decrementAppData w = Ret w ∧
  mvCallbackPythonSlot_run slot sender appData decrementAppData w = Ret w ∧
  mvCallbackPythonSlot_run_blocking mvRunCallback slot sender appData
    decrementAppData w = Ret w.
Proof.
  intros Hthis Hslot.
  unfold mvCallbackPythonSlot_run, mvCallbackPythonSlot_run_blocking,
    mvCallbackWrapper_run, mvCallbackWrapper_run_blocking, load.
  by rewrite Hslot, Hthis.
Qed.

(** The state after a move assignment, for distinct objects and for an
    assignment of a wrapper to itself. *)
Lemma mvCallbackWrapper_assign_result this other d s w :
  wrappers w !! this = Some d →
  wrappers w !! other = Some s →
  mvCallbackWrapper_assign this other w =
    Ret (set_wrappers
           (<[ other := MkWrapper None None ]> (<[ this := s ]> (wrappers w))) w).
Proof.
  intros Hd Hs. unfold mvCallbackWrapper_assign, store_callback, store_userData, load.
  rewrite Hs, Hd. simpl. destruct (decide (this = other)) as [->|Hne].
  - rewrite !lookup_insert_eq. simpl. rewrite !lookup_insert_eq. simpl.
    rewrite !lookup_insert_eq. simpl. unfold set_wrappers. simpl.
    by rewrite ?insert_insert_eq.
  - repeat (first [ rewrite lookup_insert_eq
                  | rewrite (lookup_insert_ne _ this other) by done
                  | rewrite (lookup_insert_ne _ other this) by done
                  | rewrite Hs ]; simpl).
    unfold set_wrappers. simpl.
    destruct s as [c u]. simpl. do 2 f_equal.
    apply map_eq. intros i.
    destruct (decide (i = other)) as [->|Hio];
      [by rewrite !lookup_insert_eq|].
    rewrite !(lookup_insert_ne _ other) by done.
    destruct (decide (i = this)) as [->|Hit];
      [by rewrite !lookup_insert_eq|].
    by rewrite !(lookup_insert_ne _ this) by done.
Qed.

Lemma mvCallbackWrapper_steal_result other s w :
  wrappers w !! other = Some s →
  let this := fresh (dom (wrappers w)) in
  mvCallbackWrapper_steal other w =
    Ret (this,
         set_wrappers
           (<[ other := MkWrapper None None ]> (<[ this := s ]> (wrappers w))) w).
Proof.
  intros Hs this.
  assert (Hfresh : wrappers w !! this = None).
  { apply not_elem_of_dom, is_fresh. }
  assert (Hne : this ≠ other) by congruence.
  unfold mvCallbackWrapper_steal, new_wrapper, store_callback, store_userData, load.
  fold this. simpl.
  repeat (first [ rewrite lookup_insert_eq
                | rewrite (lookup_insert_ne _ this other) by done
                | rewrite (lookup_insert_ne _ other this) by done
                | rewrite Hs ]; simpl).
  unfold set_wrappers. simpl. destruct s as [c u]. simpl. do 3 f_equal.
  apply map_eq. intros i.
  destruct (decide (i = other)) as [->|Hio];
    [by rewrite !lookup_insert_eq|].
  rewrite !(lookup_insert_ne _ other) by done.
  destruct (decide (i = this)) as [->|Hit];
    [by rewrite !lookup_insert_eq|].
  by rewrite !(lookup_insert_ne _ this) by done.
Qed.

Lemma mvCallbackWrapper_delete_null this w :
  wrappers w !! this = Some (MkWrapper None None) →
  mvCallbackWrapper_delete this w =
    Ret (set_wrappers (delete this (wrappers w)) w).
Proof.
  intros Hnull. unfold mvCallbackWrapper_delete, load. rewrite Hnull. simpl.
  by destruct w.
Qed.

(** C5. After a move, by assignment or by the stealing constructor, the
    source holds two null pointers, and its destruction leaves every
    reference count as it was. *)
Theorem move_nulls_source this other d s w :
  wrappers w !! this = Some d →
  wrappers w !! other = Some s →
  (∃ w1 w2,
     mvCallbackWrapper_assign this other w = Ret w1 ∧
     wrappers w1 !! other = Some (MkWrapper None None) ∧
     (this ≠ other → wrappers w1 !! this = Some s) ∧
     env w1 = env w ∧
     mvCallbackWrapper_delete other w1 = Ret w2 ∧
     env w2 = env w1) ∧
  (∃ new w1 w2,
     mvCallbackWrapper_steal other w = Ret (new, w1) ∧
     wrappers w1 !! other = Some (MkWrapper None None) ∧
     wrappers w1 !! new = Some s ∧
     env w1 = env w ∧
     mvCallbackWrapper_delete other w1 = Ret w2 ∧
     env w2 = env w1).
Proof.
  intros Hd Hs. split.
  - eexists _, _. split; [by eapply mvCallbackWrapper_assign_result|].
    simpl. split; [apply lookup_insert_eq|]. split.
    { intros Hne. rewrite lookup_insert_ne by done. apply lookup_insert_eq. }
    split; [done|].
    rewrite mvCallbackWrapper_delete_null by (simpl; apply lookup_insert_eq).
    split; reflexivity.
  - assert (Hne : fresh (dom (wrappers w)) ≠ other).
    { intros E. pose proof (is_fresh (dom (wrappers w))) as Hf.
      rewrite E in Hf. apply Hf, elem_of_dom. by eexists. }
    eexists _, _, _. split; [by apply mvCallbackWrapper_steal_result|].
    simpl. split; [apply lookup_insert_eq|]. split.
    { rewrite lookup_insert_ne by done. apply lookup_insert_eq. }
    split; [done|].
    rewrite mvCallbackWrapper_delete_null by (simpl; apply lookup_insert_eq).
    split; reflexivity.
Qed.

(** C9. A move assignment into a wrapper that holds two references changes
    no reference count, and the state it produces does not depend on what
    the destination held: the old pointers are overwritten and nothing that
    runs afterwards can tell them apart from null pointers.  The destructor
    of the destination then releases what the source brought and nothing
    else, so the count of an object that only the destination held is still
    what it was before the assignment. *)
Theorem assign_forgets_destination this other (a b : loc) s w :
  wrappers w !! this = Some (MkWrapper (Some a) (Some b)) →
  wrappers w !! other = Some s →
  ∃ w1 w2,
    mvCallbackWrapper_assign this other w = Ret w1 ∧
    env w1 = env w ∧
    (∀ d0, mvCallbackWrapper_assign this other
             (set_wrappers (<[ this := d0 ]> (wrappers w)) w) = Ret w1) ∧
    mvCallbackWrapper_delete this w1 = Ret w2 ∧
    env w2 = (if decide (this = other) then env w
              else Py_XDECREF (userData s) (Py_XDECREF (callback s) (env w))) ∧
    (∀ o, callback s ≠ Some o → userData s ≠ Some o →
          refcnt (env w2) o = refcnt (env w) o).
Proof.
  intros Hd Hs.
  pose proof (mvCallbackWrapper_assign_result _ _ _ _ _ Hd Hs) as Hassign.
  assert (Hany : ∀ d0, mvCallbackWrapper_assign this other
             (set_wrappers (<[ this := d0 ]> (wrappers w)) w) =
           Ret (set_wrappers
                  (<[ other := MkWrapper None None ]> (<[ this := s ]> (wrappers w))) w)).
  { intros d0. destruct (decide (this = other)) as [->|Hne].
    - rewrite (mvCallbackWrapper_assign_result other other d0 d0);
        simpl; rewrite ?lookup_insert_eq; [|done..].
      unfold set_wrappers. simpl. by rewrite !insert_insert_eq.
    - rewrite (mvCallbackWrapper_assign_result this other d0 s); simpl;
        [|by rewrite lookup_insert_eq|by rewrite lookup_insert_ne].
      unfold set_wrappers. simpl. by rewrite insert_insert_eq. }
  exists (set_wrappers
            (<[ other := MkWrapper None None ]> (<[ this := s ]> (wrappers w))) w).
  destruct (decide (this = other)) as [->|Hne].
  - eexists. split; [exact Hassign|]. split; [done|]. split; [exact Hany|].
    unfold mvCallbackWrapper_delete, load. simpl.
    rewrite lookup_insert_eq. simpl. split; [reflexivity|]. split; [done|].
    intros o _ _. done.
  - eexists. split; [exact Hassign|]. split; [done|]. split; [exact Hany|].
    unfold mvCallbackWrapper_delete, load. simpl.
    rewrite lookup_insert_ne, lookup_insert_eq by done. simpl.
    split; [reflexivity|]. split; [done|].
    intros o Hc Hu. simpl. rewrite !refcnt_Py_XDECREF.
    rewrite !bool_decide_eq_false_2 by done. lia.
Qed.

(** [run] on a wrapper with a callback, when the submission is accepted. *)
Lemma mvCallbackWrapper_run_accepted this (c : loc) (ud : option loc)
    (sender : mvUUID) (appData : option loc) (dec : bool) w us :
  wrappers w !! this = Some (MkWrapper (Some c) ud) →
  is_queue (calls (callbackRegistry w)) us →
  (callCount (callbackRegistry w) ≤ maxNumberOfCalls (callbackRegistry w))%Z →
  ∃ q',
    mvCallbackWrapper_run this sender appData dec w =
      Ret (set_registry
             (set_calls q'
                (set_callCount (wrap_i32 (callCount (callbackRegistry w) + 1))
                   (callbackRegistry w)))
             (set_env
                ((if dec then id else Py_XINCREF appData)
                   (Py_XINCREF ud (Py_XINCREF (Some c) (env w)))) w)) ∧
    is_queue q' (us ++ [MkFunctionWrapper (Some (RunLambda this sender appData))]).
Proof.
  intros Hthis Hq Hle. unfold mvCallbackWrapper_run, load. rewrite Hthis. simpl.
  match goal with |- context [mvSubmitCallback ?f ?w1] =>
    destruct (mvSubmitCallback_accepted f w1 us Hq Hle) as (q' & -> & Hq')
  end.
  simpl. exists q'. split; [|done]. by destruct dec.
Qed.

(** [run] when the submission is refused: the references have been taken
    and no unit is there to give them back. *)
Lemma mvCallbackWrapper_run_refused this (c : loc) (ud : option loc)
    (sender : mvUUID) (appData : option loc) (dec : bool) w :
  wrappers w !! this = Some (MkWrapper (Some c) ud) →
  (callCount (callbackRegistry w) > maxNumberOfCalls (callbackRegistry w))%Z →
  mvCallbackWrapper_run this sender appData dec w =
    Ret (set_env
           ((if dec then id else Py_XINCREF appData)
              (Py_XINCREF ud (Py_XINCREF (Some c) (env w)))) w).
Proof.
  intros Hthis Hgt. unfold mvCallbackWrapper_run, load. rewrite Hthis. simpl.
  rewrite over_ceiling_refused by done. simpl. by destruct dec.
Qed.

End Wrappers.

(** ** The life of a borrowing wrapper *)

Section Lifetime.

Context {Host F : Type}.
Variable invoke : F → World Host F → outcome (World Host F).
Variable mvRunCallback :
  option loc → mvUUID → option loc → option loc → Env Host → Env Host.
Implicit Types (w : World Host F) (e : Env Host) (o this : loc).

Lemma run_next_call_empty w :
  is_queue (calls (callbackRegistry w)) [] →
  run_next_call invoke mvRunCallback w = Ret None.
Proof.
  intros Hq. unfold run_next_call.
  pose proof (is_queue_empty _ _ Hq) as He.
  rewrite bool_decide_eq_true_2 in He by done.
  by rewrite (empty_try_pop _ He).
Qed.

Lemma run_next_call_head w u us :
  is_queue (calls (callbackRegistry w)) (u :: us) →
  ∃ q',
    run_next_call invoke mvRunCallback w =
      (call_wrapper invoke mvRunCallback u
         (set_registry (set_calls q' (callbackRegistry w)) w)
       ≫= λ w', Ret (Some w')) ∧
    is_queue q' us.
Proof.
  intros Hq. unfold run_next_call.
  destruct (pop_by_is_queue ByTryPop _ _ _ Hq) as (q' & Hpop & Hq').
  simpl in Hpop. rewrite Hpop. simpl. by exists q'.
Qed.

Local Ltac decide_counts :=
  repeat match goal with
  | |- context [bool_decide ?P] =>
      first [ rewrite (bool_decide_eq_true_2 P) by (first [done | by repeat split])
            | rewrite (bool_decide_eq_false_2 P)
                by (first [done | by intros (_ & ? & ?)]) ]
  end.

(** When the unit is invoked while the wrapper is alive, every reference
    count is back at its value before the construction; the one exception
    is the reference to [appData] that the caller hands over with
    [decrementAppData = true]. *)
Lemma borrow_run_invoke_delete_balanced (cb ud : option loc) (sender : mvUUID)
    (appData : option loc) (dec : bool) w :
  (∀ c s a u e o, refcnt (mvRunCallback c s a u e) o = refcnt e o) →
  is_queue (calls (callbackRegistry w)) [] →
  (callCount (callbackRegistry w) ≤ maxNumberOfCalls (callbackRegistry w))%Z →
  ∃ w',
    borrow_run_invoke_delete invoke mvRunCallback cb ud sender appData dec w
      = Ret w' ∧
    wrappers w' = wrappers w ∧
    ∀ o, refcnt (env w') o =
         (refcnt (env w) o -
          if bool_decide (is_Some cb ∧ dec = true ∧ appData = Some o)
          then 1 else 0)%Z.
Proof.
  intros Hcb Hq Hle. unfold borrow_run_invoke_delete, mvCallbackWrapper_new.
  set (this := fresh (dom (wrappers w))).
  assert (Hfresh : wrappers w !! this = None).
  { apply not_elem_of_dom, is_fresh. }
  destruct cb as [c|].
  - match goal with |- context [mvCallbackWrapper_run this _ _ _ ?w1] =>
      destruct (mvCallbackWrapper_run_accepted this c ud sender appData dec w1 [])
        as (q1 & -> & Hq1); [simpl; apply lookup_insert_eq | done | done |]
    end.
    simpl in Hq1. simpl.
    match goal with |- context [run_next_call _ _ ?w2] =>
      destruct (run_next_call_head w2 _ _ Hq1) as (q2 & -> & Hq2)
    end.
    unfold call_wrapper, call_closure, mvCallbackWrapper_delete, load. simpl.
    rewrite lookup_insert_eq. simpl. rewrite lookup_insert_eq. simpl.
    eexists. split; [reflexivity|]. simpl. split.
    { by rewrite delete_insert_eq, delete_id. }
    intros o. rewrite !refcnt_Py_XDECREF, Hcb.
    assert (Hsome : is_Some (Some c)) by by eexists.
    destruct (decide (Some c = Some o)), (decide (ud = Some o)),
      (decide (appData = Some o)), dec; simpl; rewrite !refcnt_Py_XINCREF;
      decide_counts; lia.
  - unfold mvCallbackWrapper_run, load. simpl. rewrite lookup_insert_eq. simpl.
    rewrite run_next_call_empty by done. simpl.
    unfold mvCallbackWrapper_delete, load. simpl. rewrite lookup_insert_eq. simpl.
    eexists. split; [reflexivity|]. simpl. split.
    { by rewrite delete_insert_eq, delete_id. }
    intros o. rewrite !refcnt_Py_XDECREF, !refcnt_Py_XINCREF.
    lia.
Qed.

(** C3. When the wrapper is destroyed before the unit that its [run]
    enqueued is invoked, the unit reads [callback] and [userData] through
    the [this] pointer of an object that no longer exists: the invocation
    has no defined result, and the references taken by [run] are not
    given back. *)
Theorem borrow_run_delete_invoke_undefined (c : loc) (ud : option loc)
    (sender : mvUUID) (appData : option loc) (dec : bool) w :
  is_queue (calls (callbackRegistry w)) [] →
  (callCount (callbackRegistry w) ≤ maxNumberOfCalls (callbackRegistry w))%Z →
  borrow_run_delete_invoke invoke mvRunCallback (Some c) ud sender appData dec w
    = Undefined.
Proof.
  intros Hq Hle. unfold borrow_run_delete_invoke, mvCallbackWrapper_new.
  set (this := fresh (dom (wrappers w))).
  match goal with |- context [mvCallbackWrapper_run this _ _ _ ?w1] =>
    destruct (mvCallbackWrapper_run_accepted this c ud sender appData dec w1 [])
      as (q1 & -> & Hq1); [simpl; apply lookup_insert_eq | done | done |]
  end.
  simpl in Hq1. simpl.
  unfold mvCallbackWrapper_delete, load. simpl. rewrite lookup_insert_eq. simpl.
  match goal with |- context [run_next_call _ _ ?w2] =>
    destruct (run_next_call_head w2 _ _ Hq1) as (q2 & -> & Hq2)
  end.
  unfold call_wrapper, call_closure. simpl. by rewrite lookup_delete_eq.
Qed.

End Lifetime.

(** ** Concrete runs *)

Lemma null_callback_is_noop_witness :
  wrappers null_wrapper_world !! 1%positive = Some (MkWrapper None (Some 11%positive)) ∧
  mvCallbackWrapper_run 1%positive 5%Z None true null_wrapper_world
    = Ret null_wrapper_world ∧
  mvCallbackWrapper_run_blocking log_callback 1%positive 5%Z None true
    null_wrapper_world = Ret null_wrapper_world ∧
  mvCallbackPythonSlot_run (MkSlot "set_exit_callback" 1%positive) 5%Z None true
    null_wrapper_world = Ret null_wrapper_world ∧
  mvCallbackPythonSlot_run_blocking log_callback
    (MkSlot "set_exit_callback" 1%positive) 5%Z None true null_wrapper_world
    = Ret null_wrapper_world.
Proof.
  split; [reflexivity|].
  apply (null_callback_is_noop log_callback 1%positive (Some 11%positive)
           (MkSlot "set_exit_callback" 1%positive) 5%Z None true
           null_wrapper_world); reflexivity.
Defined.

Lemma move_nulls_source_witness :
  (∃ w1 w2,
     mvCallbackWrapper_assign 1%positive 2%positive two_wrappers_world = Ret w1 ∧
     wrappers w1 !! 2%positive = Some (MkWrapper None None) ∧
     (1%positive ≠ 2%positive →
      wrappers w1 !! 1%positive =
        Some (MkWrapper (Some 12%positive) (Some 13%positive))) ∧
     env w1 = env two_wrappers_world ∧
     mvCallbackWrapper_delete 2%positive w1 = Ret w2 ∧
     env w2 = env w1) ∧
  (∃ new w1 w2,
     mvCallbackWrapper_steal 2%positive two_wrappers_world = Ret (new, w1) ∧
     wrappers w1 !! 2%positive = Some (MkWrapper None None) ∧
     wrappers w1 !! new = Some (MkWrapper (Some 12%positive) (Some 13%positive)) ∧
     env w1 = env two_wrappers_world ∧
     mvCallbackWrapper_delete 2%positive w1 = Ret w2 ∧
     env w2 = env w1).
Proof.
  apply (move_nulls_source 1%positive 2%positive
           (MkWrapper (Some 10%positive) (Some 11%positive))
           (MkWrapper (Some 12%positive) (Some 13%positive))
           two_wrappers_world); reflexivity.
Defined.

Lemma assign_forgets_destination_witness :
  ∃ w1 w2,
    mvCallbackWrapper_assign 1%positive 2%positive two_wrappers_world = Ret w1 ∧
    env w1 = env two_wrappers_world ∧
    (∀ d0, mvCallbackWrapper_assign 1%positive 2%positive
             (set_wrappers (<[ 1%positive := d0 ]> (wrappers two_wrappers_world))
                two_wrappers_world) = Ret w1) ∧
    mvCallbackWrapper_delete 1%positive w1 = Ret w2 ∧
    env w2 = (if decide (1%positive = 2%positive) then env two_wrappers_world
              else Py_XDECREF (Some 13%positive)
                     (Py_XDECREF (Some 12%positive) (env two_wrappers_world))) ∧
    (∀ o, Some 12%positive ≠ Some o → Some 13%positive ≠ Some o →
          refcnt (env w2) o = refcnt (env two_wrappers_world) o).
Proof.
  apply (assign_forgets_destination 1%positive 2%positive 10%positive 11%positive
           (MkWrapper (Some 12%positive) (Some 13%positive))
           two_wrappers_world); reflexivity.
Defined.

Lemma borrow_run_delete_invoke_undefined_witness :
  borrow_run_delete_invoke log_invoke log_callback (Some 10%positive)
    (Some 11%positive) 5%Z None true objects_world = Undefined.
Proof.
  apply (borrow_run_delete_invoke_undefined log_invoke log_callback 10%positive
           (Some 11%positive) 5%Z None true objects_world).
  - apply is_queue_new.
  - simpl. lia.
Defined.

(** The same life with the storage of the destroyed wrapper taken by a new
    wrapper for objects 12 and 13 before the unit runs: the unit calls the
    callback of the new wrapper and releases 12 and 13, which the new
    wrapper still holds, while the references that [run] took on 10 and 11
    stay. *)
Example borrow_run_delete_reuse_invoke_counts :
  (borrow_run_delete_reuse_invoke log_invoke log_callback
     (Some 10%positive) (Some 11%positive) (Some 12%positive) (Some 13%positive)
     5%Z None true objects_world
   ≫= λ w', Ret (refcnt (env w') <$> [10; 11; 12; 13]%positive,
                wrappers w' !! 1%positive)) =
  Ret ([2; 2; 1; 1]%Z, Some (MkWrapper (Some 12%positive) (Some 13%positive))).
Proof. vm_compute. reflexivity. Qed.

(** Invoked while the wrapper is alive, the counts of 10 and 11 are 1 again. *)
Example borrow_run_invoke_delete_counts :
  (borrow_run_invoke_delete log_invoke log_callback
     (Some 10%positive) (Some 11%positive) 5%Z None true objects_world
   ≫= λ w', Ret (refcnt (env w') <$> [10; 11; 12; 13]%positive, host (env w'))) =
  Ret ([1; 1; 1; 1]%Z, [5%Z]).
Proof. vm_compute. reflexivity. Qed.

(** * Further properties *)

(** ** Programs over one queue *)

Section mvQueue_programs_facts.

Context {T : Type}.
Implicit Types (q : mvQueue T) (vs : list T) (ops : list (queue_op T)).

Lemma pop_by_nothing (k : pop_kind T) q :
  is_queue q [] →
  pop_by k q = if waits k then Blocked else Ret (None, q).
Proof.
  intros Hq. pose proof (is_queue_empty _ _ Hq) as He.
  rewrite bool_decide_eq_true_2 in He by done.
  destruct k; simpl;
    unfold try_pop, try_pop_value, wait_and_pop, wait_and_pop_value,
      try_pop_head, try_pop_head_value, wait_pop_head, wait_pop_head_value,
      wait_for_data;
    by rewrite He.
Qed.

(** The calls of [ops] follow the list reference and keep any property [I]
    of the queue that a push and a pop of an element keep. *)
Lemma run_ops_keeps (I : mvQueue T → list T → Prop) :
  (∀ q vs v q', is_queue q vs → I q vs → push v q = Ret q' → I q' (vs ++ [v])) →
  (∀ k q v vs x q', is_queue q (v :: vs) → I q (v :: vs) →
                    pop_by k q = Ret (x, q') → I q' vs) →
  ∀ ops q vs,
    is_queue q vs → I q vs →
    match list_ops ops vs with
    | Ret (rs, vs') => ∃ q', run_ops ops q = Ret (rs, q') ∧ is_queue q' vs' ∧ I q' vs'
    | Blocked => run_ops ops q = Blocked
    | Undefined | Diverges => False
    end.
Proof.
  intros Hpush Hpop. induction ops as [|[v|k|] ops IH]; intros q vs Hq HI; simpl.
  - by exists q.
  - destruct (push_is_queue q vs v Hq) as (q1 & Hq1eq & Hq1).
    rewrite Hq1eq. simpl. apply IH; [done|]. by eapply Hpush.
  - destruct vs as [|v vs].
    + rewrite (pop_by_nothing k q Hq). destruct (waits k); [done|]. simpl.
      specialize (IH q [] Hq HI).
      destruct (list_ops ops []) as [[rs vs']| | |]; simpl; [| |done..].
      * destruct IH as (q' & -> & Hq' & HI'). simpl. by exists q'.
      * by rewrite IH.
    + destruct (pop_by_is_queue k q v vs Hq) as (q1 & Hq1eq & Hq1).
      rewrite Hq1eq. simpl.
      specialize (IH q1 vs Hq1 (Hpop _ _ _ _ _ _ Hq HI Hq1eq)).
      destruct (list_ops ops vs) as [[rs vs']| | |]; simpl; [| |done..].
      * destruct IH as (q' & -> & Hq' & HI'). simpl. by exists q'.
      * by rewrite IH.
  - specialize (IH q vs Hq HI). rewrite (is_queue_empty q vs Hq).
    destruct (list_ops ops vs) as [[rs vs']| | |]; simpl; [| |done..].
    + destruct IH as (q' & -> & Hq' & HI'). simpl. exists q'.
      split; [|done]. by destruct vs.
    + by rewrite IH.
Qed.

(** X1. Any sequence of [push], [try_pop], [try_pop(value&)], [wait_and_pop],
    [wait_and_pop(value&)] and [empty] calls on a well-formed queue gives the
    answers of the same calls on a first-in first-out list, leaves a
    well-formed queue holding what the list holds, and never dereferences a
    null or dangling pointer; it stops exactly where a waiting pop meets the
    empty list. *)
Theorem run_ops_refines_list ops q vs :
  is_queue q vs →
  match list_ops ops vs with
  | Ret (rs, vs') => ∃ q', run_ops ops q = Ret (rs, q') ∧ is_queue q' vs'
  | Blocked => run_ops ops q = Blocked
  | Undefined | Diverges => False
  end.
Proof.
  intros Hq.
  pose proof (run_ops_keeps (λ _ _, True) ltac:(done) ltac:(done) ops q vs Hq I)
    as Hrun.
  destruct (list_ops ops vs) as [[rs vs']| | |]; [|done..].
  destruct Hrun as (q' & Hrun & Hq' & _). by exists q'.
Qed.

Lemma push_one_more_node q vs v q' :
  is_queue q vs → push v q = Ret q' → size (nodes q') = S (size (nodes q)).
Proof.
  intros (hd & cs & Hhd & <- & Hnd & Hch & Htl). unfold push. rewrite Htl. simpl.
  rewrite destroy_chain_null. intros [= <-]. simpl.
  assert (Hp : nodes q !! new_node (nodes q) = None).
  { apply not_elem_of_dom. apply is_fresh. }
  rewrite map_size_insert_Some, map_size_insert_None; [done..|].
  rewrite lookup_insert_ne; [by eexists|]. intros E. by rewrite E, Htl in Hp.
Qed.

Lemma pop_one_node_less (k : pop_kind T) q v vs x q' :
  is_queue q (v :: vs) → pop_by k q = Ret (x, q') →
  size (nodes q') = pred (size (nodes q)).
Proof.
  intros Hq Hpop. pose proof (is_queue_empty _ _ Hq) as He.
  rewrite bool_decide_eq_false_2 in He by done.
  destruct Hq as (hd & cs & Hhd & Hvs & Hnd & Hch & Htl).
  destruct cs as [|[l v'] cs]; simplify_eq/=.
  destruct Hch as [-> (nx & Hl & Hrest)].
  assert (Hph : pop_head q =
            Ret (Node (Some v) None, MkQueue (delete l (nodes q)) (Some nx) (m_tail q))).
  { unfold pop_head. by rewrite Hhd, Hl. }
  assert (Hhdata : head_data q = Ret v).
  { unfold head_data. by rewrite Hhd, Hl. }
  assert (Hq' : q' = MkQueue (delete l (nodes q)) (Some nx) (m_tail q)).
  { destruct k; simpl in Hpop;
      unfold try_pop, try_pop_value, wait_and_pop, wait_and_pop_value,
        try_pop_head, try_pop_head_value, wait_pop_head, wait_pop_head_value,
        wait_for_data in Hpop;
      rewrite He in Hpop; simpl in Hpop; rewrite ?Hhdata in Hpop; simpl in Hpop;
      rewrite Hph in Hpop; simpl in Hpop; by simplify_eq. }
  subst q'. simpl. apply map_size_delete_Some. by eexists.
Qed.

(** X2. A queue that owns one node more than it holds elements (as a new
    queue does) still does so after any sequence of calls: every push
    allocates exactly one node and every successful pop frees exactly one,
    so no node is leaked and none is freed twice. *)
Theorem run_ops_node_count ops q vs :
  is_queue q vs →
  size (nodes q) = S (length vs) →
  match list_ops ops vs with
  | Ret (rs, vs') =>
      ∃ q', run_ops ops q = Ret (rs, q') ∧ is_queue q' vs' ∧
            size (nodes q') = S (length vs')
  | Blocked => run_ops ops q = Blocked
  | Undefined | Diverges => False
  end.
Proof.
  intros Hq Hsize.
  apply (run_ops_keeps (λ q vs, size (nodes q) = S (length vs))); [| |done..].
  - intros q0 vs0 v q' Hq0 Hs Hpush.
    rewrite (push_one_more_node _ _ _ _ Hq0 Hpush), Hs, length_app. simpl. lia.
  - intros k q0 v vs0 x q' Hq0 Hs Hpop.
    rewrite (pop_one_node_less _ _ _ _ _ _ Hq0 Hpop), Hs. done.
Qed.

(** X3. On a queue that holds an element the waiting pops do what the
    non-blocking ones do; on an empty queue the waiting pops wait, where the
    non-blocking ones return at once (C8). *)
Theorem wait_and_pop_versus_try_pop q vs (value : T) :
  is_queue q vs →
  match vs with
  | [] => wait_and_pop q = Blocked ∧ wait_and_pop_value q = Blocked
  | v :: vs' =>
      wait_and_pop q = try_pop q ∧
      (wait_and_pop_value q ≫= λ '(x, q'), Ret (true, x, q')) = try_pop_value value q ∧
      ∃ q', try_pop q = Ret (Some v, q') ∧
            try_pop_value value q = Ret (true, v, q') ∧ is_queue q' vs'
  end.
Proof.
  intros Hq. destruct vs as [|v vs].
  - pose proof (pop_by_nothing ByWaitAndPop q Hq) as H1.
    pose proof (pop_by_nothing ByWaitAndPopValue q Hq) as H2.
    simpl in *. split; [done|].
    by destruct (wait_and_pop_value q) as [[? ?]| | |].
  - pose proof (is_queue_empty _ _ Hq) as He.
    rewrite bool_decide_eq_false_2 in He by done.
    destruct (pop_head_is_queue _ _ _ Hq) as (q' & Hpop & Hdata & Hq').
    unfold try_pop, try_pop_value, wait_and_pop, wait_and_pop_value,
      try_pop_head, try_pop_head_value, wait_pop_head, wait_pop_head_value,
      wait_for_data.
    rewrite He. simpl. rewrite Hdata. simpl. rewrite Hpop. simpl.
    split; [done|]. split; [done|]. by exists q'.
Qed.

End mvQueue_programs_facts.

Lemma run_ops_refines_list_witness :
  ∃ q', run_ops [DoEmpty; DoPush 7; DoPush 8; DoPop ByTryPop; DoEmpty;
                 DoPop (ByTryPopValue 0); DoPop ByTryPop; DoPush 9;
                 DoPop ByWaitAndPopValue] mvQueue_new
          = Ret ([IsEmpty true; Popped (Some 7); IsEmpty false; Popped (Some 8);
                  Popped None; Popped (Some 9)], q') ∧
        is_queue q' [].
Proof.
  apply (run_ops_refines_list
           [DoEmpty; DoPush 7; DoPush 8; DoPop ByTryPop; DoEmpty;
            DoPop (ByTryPopValue 0); DoPop ByTryPop; DoPush 9;
            DoPop ByWaitAndPopValue] mvQueue_new []).
  apply is_queue_new.
Defined.

Lemma run_ops_node_count_witness :
  ∃ q', run_ops [DoPush 7; DoPush 8; DoPop ByTryPop; DoPush 9] mvQueue_new
          = Ret ([Popped (Some 7)], q') ∧
        is_queue q' [8; 9] ∧ size (nodes q') = 3.
Proof.
  apply (run_ops_node_count [DoPush 7; DoPush 8; DoPop ByTryPop; DoPush 9]
           mvQueue_new []); [apply is_queue_new | reflexivity].
Defined.

Lemma wait_and_pop_versus_try_pop_witness :
  wait_and_pop (@mvQueue_new nat) = Blocked ∧
  wait_and_pop_value (@mvQueue_new nat) = Blocked.
Proof.
  apply (wait_and_pop_versus_try_pop mvQueue_new [] 0). apply is_queue_new.
Defined.

(** ** Admission and tasks, any number of submissions *)

Section Submissions.

Context {Host F : Type}.
Variable invoke : F → World Host F → outcome (World Host F).
Variable mvRunCallback :
  option loc → mvUUID → option loc → option loc → Env Host → Env Host.
Implicit Types (w : World Host F) (us : list (mvFunctionWrapper F)).
Implicit Types (fs : list (closure F)).

Lemma submit_callbacks_app fs1 fs2 w :
  submit_callbacks (fs1 ++ fs2) w =
    ('(r1, w1) ← submit_callbacks fs1 w;
     '(r2, w2) ← submit_callbacks fs2 w1;
     Ret (r1 ++ r2, w2)).
Proof.
  revert w. induction fs1 as [|f fs1 IH]; intros w; simpl.
  - by destruct (submit_callbacks fs2 w) as [[? ?]| | |].
  - destruct (mvSubmitCallback f w) as [[r w1]| | |]; simpl; [|done..].
    rewrite IH. destruct (submit_callbacks fs1 w1) as [[r1 w2]| | |]; simpl; [|done..].
    by destruct (submit_callbacks fs2 w2) as [[? ?]| | |].
Qed.

Lemma submit_callbacks_over_ceiling fs w :
  (callCount (callbackRegistry w) > maxNumberOfCalls (callbackRegistry w))%Z →
  submit_callbacks fs w = Ret (replicate (length fs) NoState, w).
Proof.
  intros Hgt. induction fs as [|f fs IH]; simpl; [done|].
  rewrite (over_ceiling_refused f w Hgt). simpl. by rewrite IH.
Qed.

(** X4. Admission for any number of submissions from any counter value in
    range: of [n] submissions in a row the first [min n (max + 1 - count)]
    are accepted, in order, and all later ones are refused; [callCount]
    ends at [count] plus the number accepted and never passes
    [maxNumberOfCalls + 1]; [calls] holds the accepted closures after what
    it held, and nothing else in the process has changed. *)
Theorem submit_callbacks_split fs w us :
  is_queue (calls (callbackRegistry w)) us →
  (0 ≤ callCount (callbackRegistry w) ≤ maxNumberOfCalls (callbackRegistry w) + 1)%Z →
  (maxNumberOfCalls (callbackRegistry w) < 2 ^ 31 - 1)%Z →
  let room := Z.to_nat (maxNumberOfCalls (callbackRegistry w) + 1
                        - callCount (callbackRegistry w)) in
  let a := (length fs `min` room)%nat in
  ∃ r',
    submit_callbacks fs w =
      Ret (replicate a (SharedState false) ++ replicate (length fs - a) NoState,
           set_registry r' w) ∧
    callCount r' = (callCount (callbackRegistry w) + Z.of_nat a)%Z ∧
    (callCount r' ≤ maxNumberOfCalls r' + 1)%Z ∧
    maxNumberOfCalls r' = maxNumberOfCalls (callbackRegistry w) ∧
    tasks r' = tasks (callbackRegistry w) ∧
    running r' = running (callbackRegistry w) ∧
    is_queue (calls r') (us ++ (MkFunctionWrapper ∘ Some <$> take a fs)).
Proof.
  intros Hq Hc Hmax room a.
  replace (submit_callbacks fs w) with (submit_callbacks (take a fs ++ drop a fs) w)
    by (by rewrite take_drop).
  rewrite submit_callbacks_app.
  assert (Hlen : length (take a fs) = a).
  { rewrite length_take. subst a. lia. }
  destruct (submit_callbacks_accepted (take a fs) w us Hq)
    as (r' & -> & Hc' & Hm & Ht & Hr & Hq'); [lia | subst a room; lia | lia |].
  simpl. rewrite Hlen in *.
  assert (Hrest : submit_callbacks (drop a fs) (set_registry r' w) =
                  Ret (replicate (length fs - a) NoState, set_registry r' w)).
  { destruct (decide (length fs ≤ room)%nat) as [Hfit|Hover].
    - rewrite drop_ge by (subst a; lia).
      replace (length fs - a)%nat with 0%nat by (subst a; lia). done.
    - rewrite submit_callbacks_over_ceiling, length_drop; [done|].
      simpl. subst a room. lia. }
  rewrite Hrest. simpl. exists r'. split; [done|].
  split; [done|]. split; [subst a room; lia|]. done.
Qed.

Lemma mvSubmitTask_started (c : closure F) w us :
  started w = true →
  is_queue (tasks (callbackRegistry w)) us →
  ∃ q',
    mvSubmitTask invoke mvRunCallback c w =
      Ret (SharedState false, set_registry (set_tasks q' (callbackRegistry w)) w) ∧
    is_queue q' (us ++ [MkFunctionWrapper (Some c)]).
Proof.
  intros Hs Hq. unfold mvSubmitTask. rewrite Hs.
  destruct (push_is_queue _ _ (MkFunctionWrapper (Some c)) Hq) as (q' & -> & Hq').
  by exists q'.
Qed.

(** X5. After start-up task submission is never refused, whatever
    [callCount] is: [n] submissions in a row all return a valid future, run
    nothing, and leave [tasks] holding the [n] closures, in submission
    order, after what it held; [calls] and [callCount] are untouched. *)
Theorem submit_tasks_started fs w us :
  started w = true →
  is_queue (tasks (callbackRegistry w)) us →
  ∃ q',
    submit_tasks invoke mvRunCallback fs w =
      Ret (replicate (length fs) (SharedState false),
           set_registry (set_tasks q' (callbackRegistry w)) w) ∧
    is_queue q' (us ++ (MkFunctionWrapper ∘ Some <$> fs)).
Proof.
  revert w us. induction fs as [|f fs IH]; intros w us Hs Hq; simpl.
  - exists (tasks (callbackRegistry w)). rewrite app_nil_r. split; [|done].
    by destruct w as [e m s [mx tq cq rn cc]].
  - destruct (mvSubmitTask_started f w us Hs Hq) as (q1 & -> & Hq1). simpl.
    match goal with |- context [submit_tasks _ _ fs ?w1] =>
      destruct (IH w1 _ Hs Hq1) as (q2 & -> & Hq2)
    end.
    simpl. exists q2. rewrite <- app_assoc in Hq2. done.
Qed.

End Submissions.

Lemma submit_callbacks_split_witness :
  ∃ r',
    submit_callbacks (replicate 3 (UserClosure 7%Z))
        (set_registry (set_callCount 49 mvCallbackRegistry_new) started_world) =
      Ret (replicate 2 (SharedState false) ++ replicate 1 NoState,
           set_registry r' started_world) ∧
    callCount r' = 51%Z.
Proof.
  destruct (submit_callbacks_split (replicate 3 (UserClosure 7%Z))
              (set_registry (set_callCount 49 mvCallbackRegistry_new) started_world)
              [] is_queue_new)
    as (r' & Hsub & Hc & _); [simpl; lia | simpl; lia |].
  exists r'. split; [exact Hsub | exact Hc].
Defined.

Lemma submit_tasks_started_witness :
  ∃ q',
    submit_tasks log_invoke log_callback
        [UserClosure 7%Z; UserClosure 8%Z] saturated_world =
      Ret (replicate 2 (SharedState false),
           set_registry (set_tasks q' (callbackRegistry saturated_world))
             saturated_world) ∧
    is_queue q' [MkFunctionWrapper (Some (UserClosure 7%Z));
                 MkFunctionWrapper (Some (UserClosure 8%Z))].
Proof.
  apply (submit_tasks_started log_invoke log_callback
           [UserClosure 7%Z; UserClosure 8%Z] saturated_world []);
    [reflexivity | apply is_queue_new].
Defined.

(** ** Ownership of references *)

Section Ownership.

Context {Host F : Type}.
Variable invoke : F → World Host F → outcome (World Host F).
Variable mvRunCallback :
  option loc → mvUUID → option loc → option loc → Env Host → Env Host.
Implicit Types (w : World Host F) (e : Env Host) (o this other : loc).
Implicit Types (us : list (mvFunctionWrapper F)).

Lemma refcnt_incref (p : option loc) e o :
  refcnt (Py_XINCREF p e) o = (refcnt e o + points_to p o)%Z.
Proof. apply refcnt_Py_XINCREF. Qed.

Lemma refcnt_decref (p : option loc) e o :
  refcnt (Py_XDECREF p e) o = (refcnt e o - points_to p o)%Z.
Proof. apply refcnt_Py_XDECREF. Qed.

Lemma host_incref (p : option loc) e : host (Py_XINCREF p e) = host e.
Proof. by destruct p. Qed.

Lemma host_decref (p : option loc) e : host (Py_XDECREF p e) = host e.
Proof. by destruct p. Qed.

(** X6. A wrapper that is constructed and destroyed again, with no call in
    between, leaves the counts as they were if it borrowed, and has
    released the caller's reference on [callback] and on [userData] once
    each if it took them; the interpreter is not called and the registry is
    not touched. *)
Theorem new_then_delete_counts (cb ud : option loc) (borrow : bool) w :
  let '(this, w1) := mvCallbackWrapper_new cb ud borrow w in
  ∃ w2,
    mvCallbackWrapper_delete this w1 = Ret w2 ∧
    wrappers w2 = wrappers w ∧
    callbackRegistry w2 = callbackRegistry w ∧
    host (env w2) = host (env w) ∧
    ∀ o, refcnt (env w2) o =
         (refcnt (env w) o -
          if borrow then 0 else points_to cb o + points_to ud o)%Z.
Proof.
  unfold mvCallbackWrapper_new, mvCallbackWrapper_delete, load.
  assert (Hfresh : wrappers w !! fresh (dom (wrappers w)) = None).
  { apply not_elem_of_dom, is_fresh. }
  destruct borrow; simpl; rewrite lookup_insert_eq; simpl;
    (eexists; split; [reflexivity|]); simpl;
    (split; [by rewrite delete_insert_eq, delete_id|]);
    (split; [done|]); rewrite ?host_decref, ?host_incref; (split; [done|]);
    intros o; rewrite ?refcnt_decref, ?refcnt_incref; lia.
Qed.

(** X7. [n] calls of [run] that the registry accepts take [n] references on
    [callback] and on [userData] (and on [appData] unless
    [decrementAppData]), put [n] units at the end of [calls] in the order
    of the calls, raise [callCount] by [n], and do not call the
    interpreter. *)
Theorem run_each_accumulates this (c : loc) (ud : option loc)
    (senders : list mvUUID) (appData : option loc) (dec : bool) w us :
  wrappers w !! this = Some (MkWrapper (Some c) ud) →
  is_queue (calls (callbackRegistry w)) us →
  (0 ≤ callCount (callbackRegistry w))%Z →
  (callCount (callbackRegistry w) + Z.of_nat (length senders)
     ≤ maxNumberOfCalls (callbackRegistry w) + 1)%Z →
  (maxNumberOfCalls (callbackRegistry w) < 2 ^ 31 - 1)%Z →
  ∃ w',
    run_each this senders appData dec w = Ret w' ∧
    wrappers w' = wrappers w ∧
    host (env w') = host (env w) ∧
    tasks (callbackRegistry w') = tasks (callbackRegistry w) ∧
    maxNumberOfCalls (callbackRegistry w') = maxNumberOfCalls (callbackRegistry w) ∧
    callCount (callbackRegistry w') =
      (callCount (callbackRegistry w) + Z.of_nat (length senders))%Z ∧
    is_queue (calls (callbackRegistry w'))
      (us ++ ((λ s, MkFunctionWrapper (Some (RunLambda this s appData)))
                <$> senders)) ∧
    ∀ o, refcnt (env w') o =
         (refcnt (env w) o +
          Z.of_nat (length senders) *
            (points_to (Some c) o + points_to ud o +
             if dec then 0 else points_to appData o))%Z.
Proof.
  revert w us. induction senders as [|s ss IH]; intros w us Hthis Hq H0 Hsum Hmax;
    simpl in *.
  - exists w. rewrite app_nil_r. repeat split; [lia | done | intros o; lia].
  - destruct (mvCallbackWrapper_run_accepted this c ud s appData dec w us Hthis Hq)
      as (q1 & -> & Hq1); [lia|].
    simpl.
    match goal with |- context [run_each this ss appData dec ?w1] =>
      destruct (IH w1 _ Hthis Hq1) as (w' & -> & Hw & Hh & Ht & Hm & Hc & Hq' & Hr);
        [simpl; rewrite ?wrap_i32_small by lia; lia..|]
    end.
    simpl in *. rewrite wrap_i32_small in Hc by lia.
    exists w'. split; [done|]. split; [done|]. split.
    { rewrite Hh. destruct dec; simpl; by rewrite ?host_incref. }
    split; [done|]. split; [done|]. split; [lia|]. split.
    { by rewrite <- app_assoc in Hq'. }
    intros o. rewrite Hr. destruct dec; simpl; rewrite ?refcnt_incref; lia.
Qed.

(** X8. When the registry refuses the submission made by [run], the
    references that [run] took stay: after construction (borrowing), a
    refused [run] and destruction the counts of [callback] and [userData]
    (and of [appData] unless [decrementAppData]) are one higher than before
    the construction, with nothing queued that could give them back. *)
Theorem borrow_run_refused_delete_leaks (c : loc) (ud : option loc)
    (sender : mvUUID) (appData : option loc) (dec : bool) w :
  (callCount (callbackRegistry w) > maxNumberOfCalls (callbackRegistry w))%Z →
  ∃ w2 w3,
    mvCallbackWrapper_run (mvCallbackWrapper_new (Some c) ud true w).1
        sender appData dec (mvCallbackWrapper_new (Some c) ud true w).2 = Ret w2 ∧
    mvCallbackWrapper_delete (mvCallbackWrapper_new (Some c) ud true w).1 w2
      = Ret w3 ∧
    callbackRegistry w3 = callbackRegistry w ∧
    wrappers w3 = wrappers w ∧
    ∀ o, refcnt (env w3) o =
         (refcnt (env w) o + points_to (Some c) o + points_to ud o +
          if dec then 0 else points_to appData o)%Z.
Proof.
  intros Hgt. unfold mvCallbackWrapper_new. simpl.
  set (this := fresh (dom (wrappers w))).
  assert (Hfresh : wrappers w !! this = None).
  { apply not_elem_of_dom, is_fresh. }
  rewrite (mvCallbackWrapper_run_refused this c ud);
    [|simpl; apply lookup_insert_eq|done].
  eexists _, _. split; [reflexivity|].
  unfold mvCallbackWrapper_delete, load. simpl.
  rewrite lookup_insert_eq. simpl.
  split; [reflexivity|]. simpl. split; [done|].
  split; [by rewrite delete_insert_eq, delete_id|].
  intros o. rewrite !refcnt_decref. destruct dec; simpl; rewrite !refcnt_incref; lia.
Qed.

End Ownership.

Lemma run_each_accumulates_witness :
  ∃ w',
    run_each 1%positive [5; 6; 7]%Z None true two_wrappers_world = Ret w' ∧
    callCount (callbackRegistry w') = 3%Z ∧
    refcnt (env w') 10%positive = 5%Z.
Proof.
  destruct (run_each_accumulates 1%positive 10%positive (Some 11%positive)
              [5; 6; 7]%Z None true two_wrappers_world [])
    as (w' & Hrun & _ & _ & _ & _ & Hc & _ & Hr);
    [reflexivity | apply is_queue_new | simpl; lia | simpl; lia | simpl; lia |].
  exists w'. split; [exact Hrun|]. split; [exact Hc|]. rewrite Hr. reflexivity.
Defined.

Lemma borrow_run_refused_delete_leaks_witness :
  ∃ w2 w3,
    mvCallbackWrapper_run
        (mvCallbackWrapper_new (Some 10%positive) None true saturated_world).1
        5%Z None true
        (mvCallbackWrapper_new (Some 10%positive) None true saturated_world).2
      = Ret w2 ∧
    mvCallbackWrapper_delete
        (mvCallbackWrapper_new (Some 10%positive) None true saturated_world).1 w2
      = Ret w3 ∧
    refcnt (env w3) 10%positive = 1%Z.
Proof.
  destruct (borrow_run_refused_delete_leaks 10%positive None 5%Z None true
              saturated_world) as (w2 & w3 & Hrun & Hdel & _ & _ & Hr);
    [reflexivity|].
  exists w2, w3. split; [exact Hrun|]. split; [exact Hdel|]. rewrite Hr. reflexivity.
Defined.

(** ** Invocation *)

Section Invocation.

Context {Host F : Type}.
Variable invoke : F → World Host F → outcome (World Host F).
Variable mvRunCallback :
  option loc → mvUUID → option loc → option loc → Env Host → Env Host.
Implicit Types (w : World Host F) (e : Env Host) (o this other : loc).

(** X9. [run_blocking] on a wrapper with a callback calls the interpreter
    at once and leaves the registry alone, whatever [callCount] is, and it
    never releases [appData], whatever [decrementAppData] says; [run]
    followed by the invocation of its unit counts against the ceiling and,
    with [decrementAppData], has released [appData] once.  Apart from that
    both leave every reference count as it was (for an interpreter call
    that keeps the counts). *)
Theorem run_versus_run_blocking this (c : loc) (ud : option loc)
    (sender : mvUUID) (appData : option loc) (dec : bool) w :
  (∀ cb s a u e o, refcnt (mvRunCallback cb s a u e) o = refcnt e o) →
  wrappers w !! this = Some (MkWrapper (Some c) ud) →
  (∃ wb,
     mvCallbackWrapper_run_blocking mvRunCallback this sender appData dec w = Ret wb ∧
     env wb = mvRunCallback (Some c) sender appData ud (env w) ∧
     callbackRegistry wb = callbackRegistry w ∧
     ∀ o, refcnt (env wb) o = refcnt (env w) o) ∧
  (is_queue (calls (callbackRegistry w)) [] →
   (callCount (callbackRegistry w) ≤ maxNumberOfCalls (callbackRegistry w))%Z →
   ∃ w1 w2,
     mvCallbackWrapper_run this sender appData dec w = Ret w1 ∧
     run_next_call invoke mvRunCallback w1 = Ret (Some w2) ∧
     callCount (callbackRegistry w2) = wrap_i32 (callCount (callbackRegistry w) + 1) ∧
     is_queue (calls (callbackRegistry w2)) [] ∧
     ∀ o, refcnt (env w2) o =
          (refcnt (env w) o - if dec then points_to appData o else 0)%Z).
Proof.
  intros Hcb Hthis. split.
  - unfold mvCallbackWrapper_run_blocking, load. rewrite Hthis. simpl.
    eexists. split; [reflexivity|]. simpl. split; [done|]. split; [done|].
    intros o. apply Hcb.
  - intros Hq Hle.
    destruct (mvCallbackWrapper_run_accepted this c ud sender appData dec w [] Hthis Hq Hle)
      as (q1 & Hrun & Hq1).
    simpl in Hq1.
    match type of Hrun with _ = Ret ?w1 =>
      destruct (run_next_call_head invoke mvRunCallback w1 _ _ Hq1)
        as (q2 & Hnext & Hq2)
    end.
    eexists _, _. split; [exact Hrun|]. rewrite Hnext.
    unfold call_wrapper, call_closure. simpl. rewrite Hthis. simpl.
    split; [reflexivity|]. simpl. split; [done|]. split; [done|].
    intros o. rewrite !refcnt_decref, Hcb.
    destruct dec; simpl; rewrite !refcnt_incref; lia.
Qed.

(** X10. The unit that [run] queued reads the wrapper when it is invoked,
    not when it was queued: if another wrapper is move-assigned into this
    one between [run] and the invocation, the interpreter is called with
    the callback and the user data that came with the assignment, and those
    are the references released afterwards; the references that [run] took
    on the former callback and user data are not released. *)
Theorem run_unit_reads_wrapper_when_invoked this other (c : loc)
    (ud : option loc) (s : mvCallbackWrapper) (sender : mvUUID)
    (appData : option loc) (dec : bool) w :
  this ≠ other →
  wrappers w !! this = Some (MkWrapper (Some c) ud) →
  wrappers w !! other = Some s →
  is_queue (calls (callbackRegistry w)) [] →
  (callCount (callbackRegistry w) ≤ maxNumberOfCalls (callbackRegistry w))%Z →
  ∃ w1 w2 w3,
    mvCallbackWrapper_run this sender appData dec w = Ret w1 ∧
    env w1 = (if dec then id else Py_XINCREF appData)
               (Py_XINCREF ud (Py_XINCREF (Some c) (env w))) ∧
    mvCallbackWrapper_assign this other w1 = Ret w2 ∧
    run_next_call invoke mvRunCallback w2 = Ret (Some w3) ∧
    env w3 =
      Py_XDECREF appData
        (Py_XDECREF (userData s)
           (Py_XDECREF (callback s)
              (mvRunCallback (callback s) sender appData (userData s) (env w1)))).
Proof.
  intros Hne Hthis Hother Hq Hle.
  destruct (mvCallbackWrapper_run_accepted this c ud sender appData dec w [] Hthis Hq Hle)
    as (q1 & Hrun & Hq1).
  simpl in Hq1.
  match type of Hrun with _ = Ret ?w1 =>
    pose proof (mvCallbackWrapper_assign_result this other
                  (MkWrapper (Some c) ud) s w1 Hthis Hother) as Hassign
  end.
  match type of Hassign with _ = Ret ?w2 =>
    destruct (run_next_call_head invoke mvRunCallback w2 _ _ Hq1)
      as (q2 & Hnext & Hq2)
  end.
  eexists _, _, _. split; [exact Hrun|]. split; [reflexivity|].
  split; [exact Hassign|]. rewrite Hnext.
  unfold call_wrapper, call_closure. simpl.
  rewrite lookup_insert_ne, lookup_insert_eq by done. simpl.
  split; reflexivity.
Qed.

(** X11. A wrapper that borrowed its references and is then moved, first
    into a new wrapper by the stealing constructor and from there into a
    default-constructed one by move assignment, has released each
    reference exactly once when all three objects are destroyed: the moves
    change no count, only the last holder releases, and every count is back
    at its value before the construction. *)
Theorem moved_wrapper_releases_once (cb ud : option loc) w :
  let a := (mvCallbackWrapper_new cb ud true w).1 in
  let w1 := (mvCallbackWrapper_new cb ud true w).2 in
  ∃ b w2 w4 w5 w6 w7,
    mvCallbackWrapper_steal a w1 = Ret (b, w2) ∧
    mvCallbackWrapper_assign (mvCallbackWrapper_default w2).1 b
      (mvCallbackWrapper_default w2).2 = Ret w4 ∧
    wrappers w4 !! a = Some (MkWrapper None None) ∧
    wrappers w4 !! b = Some (MkWrapper None None) ∧
    wrappers w4 !! (mvCallbackWrapper_default w2).1 = Some (MkWrapper cb ud) ∧
    env w4 = env w1 ∧
    mvCallbackWrapper_delete a w4 = Ret w5 ∧
    mvCallbackWrapper_delete b w5 = Ret w6 ∧
    mvCallbackWrapper_delete (mvCallbackWrapper_default w2).1 w6 = Ret w7 ∧
    ∀ o, refcnt (env w7) o = refcnt (env w) o.
Proof.
  intros a w1. subst a w1. unfold mvCallbackWrapper_new. simpl.
  set (a := fresh (dom (wrappers w))).
  set (W := MkWrapper cb ud).
  set (m1 := <[ a := W ]> (wrappers w)).
  set (b := fresh (dom m1)).
  assert (Hab : a ≠ b).
  { intros E. pose proof (is_fresh (dom m1)) as Hf. fold b in Hf. rewrite <- E in Hf.
    apply Hf, elem_of_dom. subst m1. rewrite lookup_insert_eq. by eexists. }
  set (m2 := <[ a := MkWrapper None None ]> (<[ b := W ]> m1)).
  set (c := fresh (dom m2)).
  assert (Hc : m2 !! c = None) by (apply not_elem_of_dom, is_fresh).
  assert (Hca : c ≠ a).
  { intros E. rewrite E in Hc. subst m2. by rewrite lookup_insert_eq in Hc. }
  assert (Hcb : c ≠ b).
  { intros E. rewrite E in Hc. subst m2.
    by rewrite lookup_insert_ne, lookup_insert_eq in Hc. }
  exists b. eexists _, _, _, _, _.
  split.
  { apply (mvCallbackWrapper_steal_result a W). simpl. apply lookup_insert_eq. }
  unfold mvCallbackWrapper_default, new_wrapper. simpl. fold m1 m2 c.
  split.
  { apply (mvCallbackWrapper_assign_result c b (MkWrapper None None) W); simpl.
    - apply lookup_insert_eq.
    - rewrite lookup_insert_ne by done. subst m2.
      rewrite lookup_insert_ne by done. apply lookup_insert_eq. }
  simpl. split.
  { rewrite !lookup_insert_ne by done. subst m2. apply lookup_insert_eq. }
  split; [apply lookup_insert_eq|]. split.
  { rewrite lookup_insert_ne by done. apply lookup_insert_eq. }
  split; [done|].
  unfold mvCallbackWrapper_delete, load. simpl.
  rewrite !(lookup_insert_ne _ _ a) by done. subst m2. rewrite lookup_insert_eq. simpl.
  split; [reflexivity|]. simpl.
  rewrite lookup_delete_ne, lookup_insert_eq by done. simpl.
  split; [reflexivity|]. simpl.
  rewrite !lookup_delete_ne, lookup_insert_ne, lookup_insert_eq by done. simpl.
  split; [reflexivity|]. simpl.
  intros o. rewrite !refcnt_decref, !refcnt_incref.
  change (points_to None o) with 0%Z. lia.
Qed.

(** X12. A slot that has been constructed and never set holds no callback:
    firing it, queued or blocking, returns with the process unchanged. *)
Theorem unset_slot_is_silent (name : string) (sender : mvUUID)
    (appData : option loc) (dec : bool) w :
  let '(slot, w1) := mvCallbackPythonSlot_new name w in
  pythonName slot = name ∧
  env w1 = env w ∧
  callbackRegistry w1 = callbackRegistry w ∧
  mvCallbackPythonSlot_run slot sender appData dec w1 = Ret w1 ∧
  mvCallbackPythonSlot_run_blocking mvRunCallback slot sender appData dec w1 = Ret w1.
Proof.
  unfold mvCallbackPythonSlot_new, new_wrapper. simpl.
  unfold mvCallbackPythonSlot_run, mvCallbackPythonSlot_run_blocking,
    mvCallbackWrapper_run, mvCallbackWrapper_run_blocking, load. simpl.
  rewrite lookup_insert_eq. done.
Qed.

(** X13. [SanitizeCallback] maps [Py_None] to a null pointer and nothing
    else: its result is null or its argument, is never [Py_None], and
    sanitising twice is sanitising once; a wrapper built from a sanitised
    [Py_None] therefore does nothing when run. *)
Theorem SanitizeCallback_drops_None (Py_None : loc) (cb ud : option loc)
    (sender : mvUUID) (appData : option loc) (dec borrow : bool) w :
  SanitizeCallback Py_None (Some Py_None) = None ∧
  (SanitizeCallback Py_None cb = None ∨ SanitizeCallback Py_None cb = cb) ∧
  bool_decide (SanitizeCallback Py_None cb = Some Py_None) = false ∧
  SanitizeCallback Py_None (SanitizeCallback Py_None cb) = SanitizeCallback Py_None cb ∧
  let '(this, w1) :=
    mvCallbackWrapper_new (SanitizeCallback Py_None (Some Py_None)) ud borrow w in
  mvCallbackWrapper_run this sender appData dec w1 = Ret w1 ∧
  mvCallbackWrapper_run_blocking mvRunCallback this sender appData dec w1 = Ret w1.
Proof.
  assert (Hnone : SanitizeCallback Py_None (Some Py_None) = None).
  { unfold SanitizeCallback. by rewrite bool_decide_eq_true_2. }
  rewrite Hnone. split; [done|].
  assert (Hcases : SanitizeCallback Py_None cb = None ∧ cb = Some Py_None ∨
                   SanitizeCallback Py_None cb = cb ∧ cb ≠ Some Py_None).
  { unfold SanitizeCallback. case_bool_decide; auto. }
  split; [destruct Hcases as [[-> _]|[-> _]]; auto|].
  split.
  { apply bool_decide_eq_false_2. by destruct Hcases as [[-> _]|[-> ?]]. }
  split.
  { destruct Hcases as [[-> _]|[-> Hn]].
    - unfold SanitizeCallback. by rewrite bool_decide_eq_false_2.
    - unfold SanitizeCallback. by rewrite bool_decide_eq_false_2. }
  unfold mvCallbackWrapper_new, mvCallbackWrapper_run,
    mvCallbackWrapper_run_blocking, load.
  destruct borrow; simpl; by rewrite lookup_insert_eq.
Qed.

End Invocation.

Lemma run_versus_run_blocking_witness :
  (∃ wb,
     mvCallbackWrapper_run_blocking log_callback 1%positive 5%Z None true
       two_wrappers_world = Ret wb ∧
     host (env wb) = [5%Z] ∧
     callbackRegistry wb = callbackRegistry two_wrappers_world) ∧
  ∃ w1 w2,
    mvCallbackWrapper_run 1%positive 5%Z None true two_wrappers_world = Ret w1 ∧
    run_next_call log_invoke log_callback w1 = Ret (Some w2) ∧
    refcnt (env w2) 10%positive = 2%Z.
Proof.
  destruct (run_versus_run_blocking log_invoke log_callback 1%positive 10%positive
              (Some 11%positive) 5%Z None true two_wrappers_world)
    as [(wb & Hb & He & Hr & _) Hrun]; [done | reflexivity |].
  split.
  - exists wb. split; [exact Hb|]. split; [by rewrite He | exact Hr].
  - destruct (Hrun is_queue_new ltac:(simpl; lia)) as (w1 & w2 & H1 & H2 & _ & _ & Hc).
    exists w1, w2. split; [exact H1|]. split; [exact H2|]. rewrite Hc. reflexivity.
Defined.

Lemma run_unit_reads_wrapper_when_invoked_witness :
  ∃ w1 w2 w3,
    mvCallbackWrapper_run 1%positive 5%Z None true two_wrappers_world = Ret w1 ∧
    mvCallbackWrapper_assign 1%positive 2%positive w1 = Ret w2 ∧
    run_next_call log_invoke log_callback w2 = Ret (Some w3) ∧
    refcnt (env w3) <$> [10; 11; 12; 13]%positive = [3; 3; 1; 1]%Z.
Proof.
  destruct (run_unit_reads_wrapper_when_invoked log_invoke log_callback
              1%positive 2%positive 10%positive (Some 11%positive)
              (MkWrapper (Some 12%positive) (Some 13%positive)) 5%Z None true
              two_wrappers_world)
    as (w1 & w2 & w3 & H1 & He1 & H2 & H3 & He3);
    [done | reflexivity | reflexivity | apply is_queue_new | simpl; lia |].
  exists w1, w2, w3. split; [exact H1|]. split; [exact H2|]. split; [exact H3|].
  rewrite He3, He1. reflexivity.
Defined.

(** ** The two ways of moving *)

Section Moves.

Context {Host F : Type}.
Implicit Types (w : World Host F).

(** X14. The stealing constructor does what default construction followed
    by move assignment does: the same new wrapper at the same address with
    the pointers of the source, the same nulled source, no count changed. *)
Theorem steal_is_default_then_assign (f : loc) (s : mvCallbackWrapper) w :
  wrappers w !! f = Some s →
  mvCallbackWrapper_steal f w =
    (mvCallbackWrapper_assign (mvCallbackWrapper_default w).1 f
       (mvCallbackWrapper_default w).2
     ≫= λ w', Ret ((mvCallbackWrapper_default w).1, w')) ∧
  ∃ w',
    mvCallbackWrapper_steal f w = Ret ((mvCallbackWrapper_default w).1, w') ∧
    wrappers w' !! (mvCallbackWrapper_default w).1 = Some s ∧
    wrappers w' !! f = Some (MkWrapper None None) ∧
    env w' = env w.
Proof.
  intros Hf. unfold mvCallbackWrapper_default, new_wrapper. simpl.
  set (this := fresh (dom (wrappers w))).
  assert (Hfresh : wrappers w !! this = None).
  { apply not_elem_of_dom, is_fresh. }
  assert (Hne : this ≠ f) by congruence.
  rewrite (mvCallbackWrapper_steal_result f s w Hf). fold this.
  rewrite (mvCallbackWrapper_assign_result this f (MkWrapper None None) s);
    simpl; [|apply lookup_insert_eq|by rewrite lookup_insert_ne].
  unfold set_wrappers. simpl. rewrite insert_insert_eq. split; [done|].
  eexists. split; [reflexivity|]. simpl.
  split; [by rewrite lookup_insert_ne, lookup_insert_eq|].
  split; [apply lookup_insert_eq|done].
Qed.

End Moves.

Lemma steal_is_default_then_assign_witness :
  ∃ w',
    mvCallbackWrapper_steal 2%positive two_wrappers_world =
      Ret ((mvCallbackWrapper_default two_wrappers_world).1, w') ∧
    wrappers w' !! (mvCallbackWrapper_default two_wrappers_world).1 =
      Some (MkWrapper (Some 12%positive) (Some 13%positive)) ∧
    wrappers w' !! 2%positive = Some (MkWrapper None None) ∧
    env w' = env two_wrappers_world.
Proof.
  destruct (steal_is_default_then_assign 2%positive
              (MkWrapper (Some 12%positive) (Some 13%positive))
              two_wrappers_world) as [_ Hex]; [reflexivity|].
  exact Hex.
Defined.
